(** * Token hand-off between an Angular host page and two embedded frames

    A shallow embedding of [src/app/environment.service.ts] (the cookie backed
    token store, in its two variants) and of [src/app/app.ts] (the component
    that composes frame URLs, posts the token into a frame and listens for
    close requests), together with the parts of the JavaScript run time the
    code calls: UTF-16 strings, [encodeURIComponent], [decodeURIComponent],
    [String.prototype.split], [trim], [indexOf], [substring], and the
    browser's cookie jar behind [document.cookie]. *)

From Stdlib Require Import List NArith ZArith Bool String Ascii Lia.
Import ListNotations.
Local Open Scope N_scope.

(** ** JavaScript strings *)

(** A JavaScript string is a sequence of UTF-16 code units. *)
Definition jsstring := list N.

(** String literals of the source, all of them ASCII. *)
Definition lit (s : string) : jsstring :=
  List.map N_of_ascii (list_ascii_of_string s).

Fixpoint jseq (a b : jsstring) : bool :=
  match a, b with
  | [], [] => true
  | x :: a', y :: b' => (x =? y) && jseq a' b'
  | _, _ => false
  end.

Definition is_high (c : N) : bool := (0xD800 <=? c) && (c <=? 0xDBFF).
Definition is_low (c : N) : bool := (0xDC00 <=? c) && (c <=? 0xDFFF).

(** A string is well formed when every surrogate code unit is half of a
    pair; the browser only ever hands such strings to a page through text
    input and [document.cookie]. *)
Fixpoint well_formed (s : jsstring) : bool :=
  match s with
  | [] => true
  | c :: r =>
      if is_high c then
        match r with
        | lo :: r' => is_low lo && well_formed r'
        | [] => false
        end
      else if is_low c then false
      else (c <? 0x10000) && well_formed r
  end.

(** [s.indexOf(name) === 0] *)
Fixpoint starts_with (name s : jsstring) : bool :=
  match name, s with
  | [], _ => true
  | x :: name', y :: s' => (x =? y) && starts_with name' s'
  | _ :: _, [] => false
  end.

(** [s.substring(n, s.length)] *)
Definition substring_from (n : nat) (s : jsstring) : jsstring := skipn n s.

(** [s.split(sep)] for a one-character separator; the result is never
    empty: the empty string splits into one empty piece. *)
Fixpoint split (sep : N) (s : jsstring) : list jsstring :=
  match s with
  | [] => [[]]
  | c :: r =>
      if c =? sep then [] :: split sep r
      else match split sep r with
           | h :: t => (c :: h) :: t
           | [] => [[c]]
           end
  end.

(** WhiteSpace and LineTerminator code units, as [trim] strips them. *)
Definition is_white (c : N) : bool :=
  ((9 <=? c) && (c <=? 13)) || (c =? 32) || (c =? 0xA0) || (c =? 0x1680)
  || ((0x2000 <=? c) && (c <=? 0x200A))
  || (c =? 0x2028) || (c =? 0x2029) || (c =? 0x202F)
  || (c =? 0x205F) || (c =? 0x3000) || (c =? 0xFEFF).

Fixpoint drop_while (p : N -> bool) (s : jsstring) : jsstring :=
  match s with
  | [] => []
  | c :: r => if p c then drop_while p r else s
  end.

Definition strip (p : N -> bool) (s : jsstring) : jsstring :=
  rev (drop_while p (rev (drop_while p s))).

(** [s.trim()] *)
Definition trim (s : jsstring) : jsstring := strip is_white s.

(** ** Errors and results *)

Inductive js_error : Type := URIError | ReferenceError | TypeError.

Inductive result (A : Type) : Type :=
| Ok (a : A)
| Throw (e : js_error).
Arguments Ok {A} a.
Arguments Throw {A} e.

Definition rmap {A B : Type} (f : A -> B) (r : result A) : result B :=
  match r with
  | Ok a => Ok (f a)
  | Throw e => Throw e
  end.

(** ** Percent-encoding *)

Definition PERCENT : N := 37.

(** uriUnreserved: letters, digits and [-_.!~*'()]. *)
Definition unreserved (c : N) : bool :=
  ((65 <=? c) && (c <=? 90)) || ((97 <=? c) && (c <=? 122))
  || ((48 <=? c) && (c <=? 57))
  || (c =? 45) || (c =? 95) || (c =? 46) || (c =? 33) || (c =? 126)
  || (c =? 42) || (c =? 39) || (c =? 40) || (c =? 41).

(** Upper-case hexadecimal digit of a value below 16. *)
Definition hexdig (d : N) : N := if d <? 10 then 48 + d else 55 + d.

Definition hexval (c : N) : option N :=
  if (48 <=? c) && (c <=? 57) then Some (c - 48)
  else if (65 <=? c) && (c <=? 70) then Some (c - 55)
  else if (97 <=? c) && (c <=? 102) then Some (c - 87)
  else None.

(** ["%XX"] for one octet. *)
Definition escape (b : N) : jsstring :=
  [PERCENT; hexdig (b / 16); hexdig (b mod 16)].

(** The UTF-8 octets of a code point. *)
Definition utf8 (cp : N) : list N :=
  if cp <? 0x80 then [cp]
  else if cp <? 0x800 then [0xC0 + cp / 64; 0x80 + cp mod 64]
  else if cp <? 0x10000 then
    [0xE0 + cp / 4096; 0x80 + (cp / 64) mod 64; 0x80 + cp mod 64]
  else
    [0xF0 + cp / 262144; 0x80 + (cp / 4096) mod 64;
     0x80 + (cp / 64) mod 64; 0x80 + cp mod 64].

Definition escape_cp (cp : N) : jsstring := flat_map escape (utf8 cp).

(** The code point of a surrogate pair. *)
Definition pair_cp (hi lo : N) : N :=
  0x10000 + (hi - 0xD800) * 0x400 + (lo - 0xDC00).

(** The code units of a code point. *)
Definition units (cp : N) : jsstring :=
  if cp <? 0x10000 then [cp]
  else [0xD800 + (cp - 0x10000) / 0x400; 0xDC00 + (cp - 0x10000) mod 0x400].

(** [encodeURIComponent(s)]: unreserved code units are copied, every other
    code point is written as the escapes of its UTF-8 octets, and a lone
    surrogate raises [URIError]. *)
Fixpoint encodeURIComponent (s : jsstring) : result jsstring :=
  match s with
  | [] => Ok []
  | c :: r =>
      if unreserved c then rmap (cons c) (encodeURIComponent r)
      else if is_high c then
        match r with
        | lo :: r' =>
            if is_low lo
            then rmap (List.app (escape_cp (pair_cp c lo))) (encodeURIComponent r')
            else Throw URIError
        | [] => Throw URIError
        end
      else if is_low c then Throw URIError
      else rmap (List.app (escape_cp c)) (encodeURIComponent r)
  end.

(** The octet written by two hexadecimal digits. *)
Definition octet (h l : N) : option N :=
  match hexval h, hexval l with
  | Some a, Some b => Some (16 * a + b)
  | _, _ => None
  end.

(** A continuation octet ["%XX"] with [10xxxxxx] bits; its six payload
    bits. *)
Definition continuation (p h l : N) : option N :=
  if p =? PERCENT then
    match octet h l with
    | Some b => if (0x80 <=? b) && (b <? 0xC0) then Some (b - 0x80) else None
    | None => None
    end
  else None.

(** Code points of two, three and four octet sequences; overlong forms,
    surrogates and values above U+10FFFF are not valid UTF-8. *)
Definition cp2 (b0 x1 : N) : option N :=
  let cp := (b0 - 0xC0) * 64 + x1 in
  if 0x80 <=? cp then Some cp else None.

Definition cp3 (b0 x1 x2 : N) : option N :=
  let cp := (b0 - 0xE0) * 4096 + x1 * 64 + x2 in
  if (0x800 <=? cp) && negb ((0xD800 <=? cp) && (cp <=? 0xDFFF))
  then Some cp else None.

Definition cp4 (b0 x1 x2 x3 : N) : option N :=
  let cp := (b0 - 0xF0) * 262144 + x1 * 4096 + x2 * 64 + x3 in
  if (0x10000 <=? cp) && (cp <=? 0x10FFFF) then Some cp else None.

Definition emit (o : option N) (k : result jsstring) : result jsstring :=
  match o with
  | Some cp => rmap (List.app (units cp)) k
  | None => Throw URIError
  end.

(** [decodeURIComponent(s)]: every escape sequence is replaced by the code
    point its octets encode; a ['%'] that does not start a valid sequence
    raises [URIError]. *)
Fixpoint decodeURIComponent (s : jsstring) : result jsstring :=
  match s with
  | [] => Ok []
  | c :: r =>
      if negb (c =? PERCENT) then rmap (cons c) (decodeURIComponent r)
      else
        match r with
        | h :: l :: r1 =>
            match octet h l with
            | None => Throw URIError
            | Some b0 =>
                if b0 <? 0x80 then rmap (cons b0) (decodeURIComponent r1)
                else if b0 <? 0xC0 then Throw URIError
                else if b0 <? 0xE0 then
                  match r1 with
                  | p1 :: h1 :: l1 :: r2 =>
                      match continuation p1 h1 l1 with
                      | Some x1 => emit (cp2 b0 x1) (decodeURIComponent r2)
                      | None => Throw URIError
                      end
                  | _ => Throw URIError
                  end
                else if b0 <? 0xF0 then
                  match r1 with
                  | p1 :: h1 :: l1 :: p2 :: h2 :: l2 :: r3 =>
                      match continuation p1 h1 l1, continuation p2 h2 l2 with
                      | Some x1, Some x2 =>
                          emit (cp3 b0 x1 x2) (decodeURIComponent r3)
                      | _, _ => Throw URIError
                      end
                  | _ => Throw URIError
                  end
                else if b0 <? 0xF8 then
                  match r1 with
                  | p1 :: h1 :: l1 :: p2 :: h2 :: l2 :: p3 :: h3 :: l3 :: r4 =>
                      match continuation p1 h1 l1, continuation p2 h2 l2,
                            continuation p3 h3 l3 with
                      | Some x1, Some x2, Some x3 =>
                          emit (cp4 b0 x1 x2 x3) (decodeURIComponent r4)
                      | _, _, _ => Throw URIError
                      end
                  | _ => Throw URIError
                  end
                else Throw URIError
            end
        | _ => Throw URIError
        end
  end.


(** ** Values carried by cross-window messages *)

(** Numbers are kept as integers, [NaN] or an infinity: the code looks at
    a number only through [typeof] and truthiness. *)
Inductive js_number : Type :=
| NaN
| Infinite (negative : bool)
| Finite (z : Z).

(** [event.data] is a structured clone: a primitive or a plain object
    (arrays are objects with index keys). *)
#[warnings="-register-all"]
Inductive js_value : Type :=
| VUndefined
| VNull
| VBool (b : bool)
| VNumber (n : js_number)
| VString (s : jsstring)
| VObject (props : list (jsstring * js_value)).

(** ToBoolean. *)
Definition truthy (v : js_value) : bool :=
  match v with
  | VUndefined | VNull => false
  | VBool b => b
  | VNumber NaN => false
  | VNumber (Infinite _) => true
  | VNumber (Finite z) => negb (Z.eqb z 0)
  | VString s => match s with [] => false | _ :: _ => true end
  | VObject _ => true
  end.

(** The [typeof] operator; [typeof null] is ["object"]. *)
Definition typeof (v : js_value) : jsstring :=
  match v with
  | VUndefined => lit "undefined"
  | VNull => lit "object"
  | VBool _ => lit "boolean"
  | VNumber _ => lit "number"
  | VString _ => lit "string"
  | VObject _ => lit "object"
  end.

Fixpoint lookup_prop (key : jsstring) (props : list (jsstring * js_value))
  : js_value :=
  match props with
  | [] => VUndefined
  | (k, v) :: r => if jseq k key then v else lookup_prop key r
  end.

(** Property read [v.key]: reading a property of [undefined] or [null]
    raises [TypeError], a missing property reads as [undefined]. *)
Definition get_prop (v : js_value) (key : jsstring) : result js_value :=
  match v with
  | VUndefined | VNull => Throw TypeError
  | VObject props => Ok (lookup_prop key props)
  | _ => Ok VUndefined
  end.

(** [v === 'literal'] *)
Definition strict_eq_string (v : js_value) (s : jsstring) : bool :=
  match v with
  | VString t => jseq t s
  | _ => false
  end.

Record MessageEvent : Type := {
  origin : jsstring;
  data : js_value
}.

(** ** The state of the page and of its surroundings *)

Inductive platform : Type := Browser | Server.

Inductive frame : Type := Patient | Staff.

(** The deferred callbacks the component registers with [setTimeout]: the
    one of the deployed build and the one of the local build, each closing
    over the sender of its own build. *)
Inductive callback : Type :=
| SendToken (type : frame)
| SendTokenLocal (type : frame).

(** [iframe.contentWindow.postMessage(message, targetOrigin)] *)
Record post : Type := {
  post_frame : frame;
  post_message : js_value;
  post_target : jsstring
}.

(** Angular's [SafeResourceUrl]. *)
Inductive SafeResourceUrl : Type :=
| TrustedResourceUrl (url : jsstring).

(** The fields of the [App] component. *)
Record App : Type := {
  token : jsstring;
  showPatientIframe : bool;
  showStaffIframe : bool;
  patientIframeUrl : option SafeResourceUrl;
  staffIframeUrl : option SafeResourceUrl;
  patientUrl : jsstring;
  staffUrl : jsstring
}.

(** What the component reaches outside itself: the platform it runs on, the
    clock (milliseconds since the epoch), the cookie jar of the page (name
    and value of every cookie, in the order [document.cookie] lists them),
    whether each frame's element is in the document with a content window,
    the pending timers (delay and callback), the messages posted into
    frames, the console, the alerts shown, the number of forced view
    refreshes and the number of installed message listeners. *)
Record Env : Type := {
  platformId : platform;
  now : N;
  cookies : list (jsstring * jsstring);
  patient_window : bool;
  staff_window : bool;
  timers : list (N * callback);
  posted : list post;
  console : list (list js_value);
  alerts : list jsstring;
  view_flushes : nat;
  message_listeners : nat
}.

Record Host : Type := {
  app : App;
  env : Env
}.

Definition with_app (f : App -> App) (h : Host) : Host :=
  {| app := f (app h); env := env h |}.

Definition with_env (f : Env -> Env) (h : Host) : Host :=
  {| app := app h; env := f (env h) |}.

Definition set_token (v : jsstring) (a : App) : App :=
  {| token := v;
     showPatientIframe := showPatientIframe a;
     showStaffIframe := showStaffIframe a;
     patientIframeUrl := patientIframeUrl a;
     staffIframeUrl := staffIframeUrl a;
     patientUrl := patientUrl a;
     staffUrl := staffUrl a |}.

Definition set_showPatientIframe (v : bool) (a : App) : App :=
  {| token := token a;
     showPatientIframe := v;
     showStaffIframe := showStaffIframe a;
     patientIframeUrl := patientIframeUrl a;
     staffIframeUrl := staffIframeUrl a;
     patientUrl := patientUrl a;
     staffUrl := staffUrl a |}.

Definition set_showStaffIframe (v : bool) (a : App) : App :=
  {| token := token a;
     showPatientIframe := showPatientIframe a;
     showStaffIframe := v;
     patientIframeUrl := patientIframeUrl a;
     staffIframeUrl := staffIframeUrl a;
     patientUrl := patientUrl a;
     staffUrl := staffUrl a |}.

Definition set_patientIframeUrl (v : SafeResourceUrl) (a : App) : App :=
  {| token := token a;
     showPatientIframe := showPatientIframe a;
     showStaffIframe := showStaffIframe a;
     patientIframeUrl := Some v;
     staffIframeUrl := staffIframeUrl a;
     patientUrl := patientUrl a;
     staffUrl := staffUrl a |}.

Definition set_staffIframeUrl (v : SafeResourceUrl) (a : App) : App :=
  {| token := token a;
     showPatientIframe := showPatientIframe a;
     showStaffIframe := showStaffIframe a;
     patientIframeUrl := patientIframeUrl a;
     staffIframeUrl := Some v;
     patientUrl := patientUrl a;
     staffUrl := staffUrl a |}.

Definition set_cookies (v : list (jsstring * jsstring)) (e : Env) : Env :=
  {| platformId := platformId e; now := now e; cookies := v;
     patient_window := patient_window e; staff_window := staff_window e;
     timers := timers e; posted := posted e; console := console e;
     alerts := alerts e; view_flushes := view_flushes e;
     message_listeners := message_listeners e |}.

Definition set_timers (v : list (N * callback)) (e : Env) : Env :=
  {| platformId := platformId e; now := now e; cookies := cookies e;
     patient_window := patient_window e; staff_window := staff_window e;
     timers := v; posted := posted e; console := console e;
     alerts := alerts e; view_flushes := view_flushes e;
     message_listeners := message_listeners e |}.

Definition set_posted (v : list post) (e : Env) : Env :=
  {| platformId := platformId e; now := now e; cookies := cookies e;
     patient_window := patient_window e; staff_window := staff_window e;
     timers := timers e; posted := v; console := console e;
     alerts := alerts e; view_flushes := view_flushes e;
     message_listeners := message_listeners e |}.

Definition set_console (v : list (list js_value)) (e : Env) : Env :=
  {| platformId := platformId e; now := now e; cookies := cookies e;
     patient_window := patient_window e; staff_window := staff_window e;
     timers := timers e; posted := posted e; console := v;
     alerts := alerts e; view_flushes := view_flushes e;
     message_listeners := message_listeners e |}.

Definition set_alerts (v : list jsstring) (e : Env) : Env :=
  {| platformId := platformId e; now := now e; cookies := cookies e;
     patient_window := patient_window e; staff_window := staff_window e;
     timers := timers e; posted := posted e; console := console e;
     alerts := v; view_flushes := view_flushes e;
     message_listeners := message_listeners e |}.

Definition set_view_flushes (v : nat) (e : Env) : Env :=
  {| platformId := platformId e; now := now e; cookies := cookies e;
     patient_window := patient_window e; staff_window := staff_window e;
     timers := timers e; posted := posted e; console := console e;
     alerts := alerts e; view_flushes := v;
     message_listeners := message_listeners e |}.

Definition set_message_listeners (v : nat) (e : Env) : Env :=
  {| platformId := platformId e; now := now e; cookies := cookies e;
     patient_window := patient_window e; staff_window := staff_window e;
     timers := timers e; posted := posted e; console := console e;
     alerts := alerts e; view_flushes := view_flushes e;
     message_listeners := v |}.

(** ** Computations: state threaded through, exceptions propagated *)

Definition M (A : Type) : Type := Host -> result A * Host.

Definition ret {A : Type} (a : A) : M A := fun h => (Ok a, h).

Definition bind {A B : Type} (m : M A) (k : A -> M B) : M B :=
  fun h =>
    match m h with
    | (Ok a, h') => k a h'
    | (Throw e, h') => (Throw e, h')
    end.

Definition throw {A : Type} (e : js_error) : M A := fun h => (Throw e, h).

Definition lift {A : Type} (r : result A) : M A := fun h => (r, h).

Definition gets {A : Type} (f : Host -> A) : M A := fun h => (Ok (f h), h).

Definition modify (f : Host -> Host) : M unit := fun h => (Ok tt, f h).

Declare Scope js_scope.
Delimit Scope js_scope with js.
Notation "x <- m ;; k" := (bind m (fun x => k))
  (at level 61, m at next level, right associativity) : js_scope.
Notation "m ;; k" := (bind m (fun _ => k))
  (at level 61, right associativity) : js_scope.
Local Open Scope js_scope.

(** ** The cookie jar behind [document.cookie] *)

Definition SEMICOLON : N := 59.
Definition EQUALS : N := 61.

Fixpoint take_until (sep : N) (s : jsstring) : jsstring :=
  match s with
  | [] => []
  | c :: r => if c =? sep then [] else c :: take_until sep r
  end.

Fixpoint drop_through (sep : N) (s : jsstring) : option jsstring :=
  match s with
  | [] => None
  | c :: r => if c =? sep then Some r else drop_through sep r
  end.

(** Space and horizontal tab. *)
Definition is_wsp (c : N) : bool := (c =? 32) || (c =? 9).

(** Control characters: U+0000 to U+001F and U+007F. *)
Definition is_ctl (c : N) : bool := (c <? 32) || (c =? 127).

Definition is_digit (c : N) : bool := (48 <=? c) && (c <=? 57).

(** ASCII letters in lower case: attribute names are compared so. *)
Definition ascii_lower (s : jsstring) : jsstring :=
  List.map (fun c => if (65 <=? c) && (c <=? 90) then c + 32 else c) s.

(** [document.cookie] is a [USVString]: a surrogate that is not half of a
    pair reaches the browser as U+FFFD. *)
Fixpoint usv (s : jsstring) : jsstring :=
  match s with
  | [] => []
  | c :: r =>
      if is_high c then
        match r with
        | lo :: r' => if is_low lo then c :: lo :: usv r' else 0xFFFD :: usv r
        | [] => [0xFFFD]
        end
      else if is_low c then 0xFFFD :: usv r
      else c :: usv r
  end.

(** The length of a string in UTF-8 octets, the measure of the size limit
    of a cookie. *)
Fixpoint octets (s : jsstring) : N :=
  match s with
  | [] => 0
  | c :: r =>
      if is_high c then
        match r with
        | lo :: r' => if is_low lo then 4 + octets r' else 3 + octets r
        | [] => 3
        end
      else if is_low c then 3 + octets r
      else N.of_nat (List.length (utf8 c)) + octets r
  end.

(** The largest name and value, taken together, a browser stores. *)
Definition COOKIE_LIMIT : N := 4096.

(** What the page assigns to [document.cookie]: the text in front of the
    attributes the code writes, and the instant of the [expires] attribute
    the code appends. The code's own attribute text ([expires] with
    [Date.prototype.toUTCString], [path=/]) is not modelled as text: the jar
    is the one of path [/]. A token with a [';'] continues as attribute
    text in front of these two. *)
Record cookie_write : Type := {
  cw_text : jsstring;
  cw_expires : N
}.

(** The name and value the browser reads from the assigned text (RFC 6265,
    section 5.2, as browsers apply it): the pair ends at the first [';'],
    is cut at its first ['='], and both halves lose surrounding spaces and
    tabs; a pair with no ['='] is a value without a name, and a pair with
    neither name nor value is ignored. Whatever follows the first [';'] is
    attribute text to the browser. *)
Definition parse_pair (text : jsstring) : option (jsstring * jsstring) :=
  let nv := take_until SEMICOLON text in
  let name := match drop_through EQUALS nv with
              | None => []
              | Some _ => strip is_wsp (take_until EQUALS nv)
              end in
  let value := match drop_through EQUALS nv with
               | None => strip is_wsp nv
               | Some v => strip is_wsp v
               end in
  match name, value with
  | [], [] => None
  | _, _ => Some (name, value)
  end.

(** The attributes the assigned text carries behind its first [';'], which
    are those a token with a [';'] brings along: names in lower case,
    values without surrounding spaces and tabs. *)
Definition attributes (text : jsstring) : list (jsstring * jsstring) :=
  match drop_through SEMICOLON text with
  | None => []
  | Some rest =>
      List.map (fun a =>
        (ascii_lower (strip is_wsp (take_until EQUALS a)),
         match drop_through EQUALS a with
         | Some v => strip is_wsp v
         | None => []
         end)) (split SEMICOLON rest)
  end.

(** The value of a [Max-Age] attribute: whether the number of seconds is
    positive; a value that is not a number makes the attribute void. *)
Definition max_age (v : jsstring) : option bool :=
  match v with
  | [] => None
  | c :: r =>
      if c =? 45 then
        match r with
        | [] => None
        | _ :: _ => if forallb is_digit r then Some false else None
        end
      else if forallb is_digit v
      then Some (existsb (fun d => negb (d =? 48)) v)
      else None
  end.

(** The last [Max-Age] attribute that is not void. *)
Fixpoint last_max_age (attrs : list (jsstring * jsstring)) : option bool :=
  match attrs with
  | [] => None
  | (n, v) :: r =>
      match last_max_age r with
      | Some b => Some b
      | None => if jseq n (lit "max-age") then max_age v else None
      end
  end.

(** The writes a browser refuses: a control character in the name or the
    value, or one other than the tab anywhere in the text; a name and
    value of more than [COOKIE_LIMIT] octets together; an [HttpOnly]
    attribute, which a script may not set. *)
Definition refused (text name value : jsstring) : bool :=
  existsb is_ctl name || existsb is_ctl value
  || existsb (fun c => is_ctl c && negb (c =? 9)) text
  || (COOKIE_LIMIT <? octets name + octets value)
  || existsb (fun a => jseq (fst a) (lit "httponly")) (attributes text).

Fixpoint jar_remove (name : jsstring) (jar : list (jsstring * jsstring))
  : list (jsstring * jsstring) :=
  match jar with
  | [] => []
  | (n, v) :: r =>
      if jseq n name then jar_remove name r else (n, v) :: jar_remove name r
  end.

(** A cookie written again keeps its place in the list. *)
Fixpoint jar_put (name value : jsstring) (jar : list (jsstring * jsstring))
  : list (jsstring * jsstring) :=
  match jar with
  | [] => [(name, value)]
  | (n, v) :: r =>
      if jseq n name then (n, value) :: r else (n, v) :: jar_put name value r
  end.

(** One assignment to [document.cookie]. A refused write leaves the jar as
    it is. The lifetime is that of the last valid [Max-Age] attribute in
    the text, else that of the [expires] attribute the code appends, which
    comes after any the text carries; a write whose lifetime is not in the
    future evicts the cookie. [Domain], [Secure], [SameSite] and
    [Partitioned] in the text are not interpreted: what they do depends on
    the address the page is served from, which the source does not fix. *)
Definition store_cookie (w : cookie_write) (clock : N)
  (jar : list (jsstring * jsstring)) : list (jsstring * jsstring) :=
  let text := usv (cw_text w) in
  match parse_pair text with
  | None => jar
  | Some (name, value) =>
      if refused text name value then jar
      else
        match last_max_age (attributes text) with
        | Some true => jar_put name value jar
        | Some false => jar_remove name jar
        | None =>
            if cw_expires w <=? clock then jar_remove name jar
            else jar_put name value jar
        end
  end.

(** The text of one jar entry: ["name=value"], and the bare value for a
    cookie without a name. *)
Definition entry (e : jsstring * jsstring) : jsstring :=
  match fst e with
  | [] => snd e
  | _ :: _ => fst e ++ EQUALS :: snd e
  end.

(** Reading [document.cookie]: the entries joined by ["; "]. *)
Fixpoint cookie_string (jar : list (jsstring * jsstring)) : jsstring :=
  match jar with
  | [] => []
  | [e] => entry e
  | e :: r => entry e ++ lit "; " ++ cookie_string r
  end.

(** [document], [window] and [alert] exist in a browser only; naming them
    elsewhere raises [ReferenceError]. *)
Definition in_browser {A : Type} (m : M A) : M A :=
  fun h =>
    match platformId (env h) with
    | Browser => m h
    | Server => (Throw ReferenceError, h)
    end.

(** [document.cookie = ...] *)
Definition document_cookie_set (w : cookie_write) : M unit :=
  in_browser (modify (with_env (fun e =>
    set_cookies (store_cookie w (now e) (cookies e)) e))).

(** [document.cookie] *)
Definition document_cookie_get : M jsstring :=
  in_browser (gets (fun h => cookie_string (cookies (env h)))).

(** [alert(message)] *)
Definition alert (message : jsstring) : M unit :=
  in_browser (modify (with_env (fun e =>
    set_alerts (alerts e ++ [message]) e))).

(** [console.log(...args)] *)
Definition console_log (args : list js_value) : M unit :=
  modify (with_env (fun e => set_console (console e ++ [args]) e)).

(** [setTimeout(cb, delay)] *)
Definition setTimeout (cb : callback) (delay : N) : M unit :=
  modify (with_env (fun e => set_timers (timers e ++ [(delay, cb)]) e)).

(** ** [EnvironmentService] *)

Definition TOKEN_KEY : jsstring := lit "authToken".

(** [30 * 24 * 60 * 60 * 1000] *)
Definition THIRTY_DAYS : N := 30 * 24 * 60 * 60 * 1000.

Definition isPlatformBrowser (p : platform) : bool :=
  match p with
  | Browser => true
  | Server => false
  end.

(** The [for] loop of [getToken]: the first piece that, once trimmed,
    starts with [name] gives the token. *)
Fixpoint find_token (name : jsstring) (cookieArray : list jsstring)
  : option jsstring :=
  match cookieArray with
  | [] => None
  | piece :: rest =>
      let cookie := trim piece in
      if starts_with name cookie
      then Some (substring_from (List.length name) cookie)
      else find_token name rest
  end.

(** [!!token] for [token : string | null] *)
Definition present (t : option jsstring) : bool :=
  match t with
  | Some (_ :: _) => true
  | _ => false
  end.

(** The body [setToken], [getToken] and [removeToken] share in both
    variants of the service. *)
Module Cookie.

Definition write_token (t : jsstring) : M unit :=
  clock <- gets (fun h => now (env h)) ;;
  document_cookie_set
    {| cw_text := TOKEN_KEY ++ EQUALS :: t;
       cw_expires := clock + THIRTY_DAYS |}.

Definition read_token : M (option jsstring) :=
  let name := TOKEN_KEY ++ lit "=" in
  cookie <- document_cookie_get ;;
  decodedCookie <- lift (decodeURIComponent cookie) ;;
  let cookieArray := split SEMICOLON decodedCookie in
  ret (find_token name cookieArray).

Definition expire_token : M unit :=
  document_cookie_set
    {| cw_text := TOKEN_KEY ++ lit "="; cw_expires := 0 |}.

End Cookie.

(** [src/app/environment.service.ts]: every method names [document]. *)
Module Unguarded.

Definition setToken (t : jsstring) : M unit := Cookie.write_token t.

Definition getToken : M (option jsstring) := Cookie.read_token.

Definition removeToken : M unit := Cookie.expire_token.

Definition hasToken : M bool :=
  t <- getToken ;; ret (present t).

End Unguarded.

(** The service of the server-rendered build: every access to [document]
    is behind [isPlatformBrowser(this.platformId)]. *)
Module Guarded.

Definition setToken (t : jsstring) : M unit :=
  platformId <- gets (fun h => platformId (env h)) ;;
  if isPlatformBrowser platformId then Cookie.write_token t else ret tt.

Definition getToken : M (option jsstring) :=
  platformId <- gets (fun h => platformId (env h)) ;;
  if isPlatformBrowser platformId then Cookie.read_token else ret None.

Definition removeToken : M unit :=
  platformId <- gets (fun h => platformId (env h)) ;;
  if isPlatformBrowser platformId then Cookie.expire_token else ret tt.

Definition hasToken : M bool :=
  t <- getToken ;; ret (present t).

End Guarded.

(** ** The [App] component *)

(** The origin the token is posted to. *)
Definition FRAME_ORIGIN : jsstring :=
  lit "https://fe-react-v1.practeaz.workers.dev/".

Definition initial_app : App :=
  {| token := [];
     showPatientIframe := false;
     showStaffIframe := false;
     patientIframeUrl := None;
     staffIframeUrl := None;
     patientUrl := lit "https://fe-react-v1.practeaz.workers.dev/patient";
     staffUrl := lit "https://fe-react-v1.practeaz.workers.dev/staff" |}.

(** [this.sanitizer.bypassSecurityTrustResourceUrl(url)] *)
Definition bypassSecurityTrustResourceUrl (url : jsstring) : SafeResourceUrl :=
  TrustedResourceUrl url.

(** The URL of a frame: the base, followed by [?token=] and the encoded
    token when [token] is truthy, that is a string that is not empty. *)
Definition compose (base : jsstring) (t : option jsstring) : result jsstring :=
  match t with
  | Some (c :: r) =>
      rmap (fun e => base ++ lit "?token=" ++ e) (encodeURIComponent (c :: r))
  | _ => Ok base
  end.

(** Both frame URLs, from the token read now. *)
Definition updateIframeUrls : M unit :=
  t <- Guarded.getToken ;;
  base <- gets (fun h => patientUrl (app h)) ;;
  patientUrl <- lift (compose base t) ;;
  modify (with_app
    (set_patientIframeUrl (bypassSecurityTrustResourceUrl patientUrl))) ;;
  base <- gets (fun h => staffUrl (app h)) ;;
  staffUrl <- lift (compose base t) ;;
  modify (with_app
    (set_staffIframeUrl (bypassSecurityTrustResourceUrl staffUrl))).

(** [document.querySelector(className)] finds the frame's element and the
    element has a [contentWindow]. *)
Definition frame_window (type : frame) : M bool :=
  in_browser (gets (fun h =>
    match type with
    | Patient => patient_window (env h)
    | Staff => staff_window (env h)
    end)).

(** [{ type: 'AUTH_TOKEN', token: token }] *)
Definition AUTH_TOKEN (t : jsstring) : js_value :=
  VObject [(lit "type", VString (lit "AUTH_TOKEN")); (lit "token", VString t)].

Definition postMessage (type : frame) (message : js_value)
  (targetOrigin : jsstring) : M unit :=
  modify (with_env (fun e =>
    set_posted (posted e ++ [{| post_frame := type;
                               post_message := message;
                               post_target := targetOrigin |}]) e)).

Definition sendTokenToIframe (type : frame) : M unit :=
  t <- Guarded.getToken ;;
  match t with
  | Some (c :: r) =>
      window <- frame_window type ;;
      if window then postMessage type (AUTH_TOKEN (c :: r)) FRAME_ORIGIN
      else ret tt
  | _ => ret tt
  end.

(** The stub the timer callbacks still call. *)
Definition setupIframeLoadListener (_type : frame) : M unit := ret tt.

(** The delay of the deferred send, in milliseconds. *)
Definition SETTLE_DELAY : N := 500.

(** The [App] component of the local build, the earlier [app.ts]: the
    frames are served from [localhost:3000], the token store is
    [src/app/environment.service.ts], the toggles log nothing, no
    message listener is installed, and the deferred callback calls the
    sender of this build. *)
Module Local.

Definition FRAME_ORIGIN : jsstring := lit "http://localhost:3000/".

Definition initial_app : App :=
  {| token := [];
     showPatientIframe := false;
     showStaffIframe := false;
     patientIframeUrl := None;
     staffIframeUrl := None;
     patientUrl := lit "http://localhost:3000/patient";
     staffUrl := lit "http://localhost:3000/staff" |}.

Definition updateIframeUrls : M unit :=
  t <- Unguarded.getToken ;;
  base <- gets (fun h => patientUrl (app h)) ;;
  patientUrl <- lift (compose base t) ;;
  modify (with_app
    (set_patientIframeUrl (bypassSecurityTrustResourceUrl patientUrl))) ;;
  base <- gets (fun h => staffUrl (app h)) ;;
  staffUrl <- lift (compose base t) ;;
  modify (with_app
    (set_staffIframeUrl (bypassSecurityTrustResourceUrl staffUrl))).

Definition ngOnInit : M unit := updateIframeUrls.

Definition sendTokenToIframe (type : frame) : M unit :=
  t <- Unguarded.getToken ;;
  match t with
  | Some (c :: r) =>
      window <- frame_window type ;;
      if window then postMessage type (AUTH_TOKEN (c :: r)) FRAME_ORIGIN
      else ret tt
  | _ => ret tt
  end.

Definition togglePatientIframe : M unit :=
  modify (with_app (fun a =>
    set_showPatientIframe (negb (showPatientIframe a)) a)) ;;
  shown <- gets (fun h => showPatientIframe (app h)) ;;
  if shown then
    updateIframeUrls ;;
    setTimeout (SendTokenLocal Patient) SETTLE_DELAY
  else ret tt.

Definition toggleStaffIframe : M unit :=
  modify (with_app (fun a =>
    set_showStaffIframe (negb (showStaffIframe a)) a)) ;;
  shown <- gets (fun h => showStaffIframe (app h)) ;;
  if shown then
    updateIframeUrls ;;
    setTimeout (SendTokenLocal Staff) SETTLE_DELAY
  else ret tt.

Definition toggle (type : frame) : M unit :=
  match type with
  | Patient => togglePatientIframe
  | Staff => toggleStaffIframe
  end.

Definition onLogin : M unit :=
  t <- gets (fun h => token (app h)) ;;
  match t with
  | _ :: _ =>
      Unguarded.setToken t ;;
      alert (lit "Token set successfully!") ;;
      updateIframeUrls ;;
      modify (with_app (set_token []))
  | [] => ret tt
  end.

End Local.

(** The body of a deferred callback. *)
Definition run_callback (cb : callback) : M unit :=
  match cb with
  | SendToken type => sendTokenToIframe type ;; setupIframeLoadListener type
  | SendTokenLocal type => Local.sendTokenToIframe type
  end.

(** The oldest pending timer fires. *)
Definition fire_timer : M unit :=
  pending <- gets (fun h => timers (env h)) ;;
  match pending with
  | [] => ret tt
  | (_, cb) :: rest =>
      modify (with_env (set_timers rest)) ;; run_callback cb
  end.

Definition togglePatientIframe : M unit :=
  modify (with_app (fun a =>
    set_showPatientIframe (negb (showPatientIframe a)) a)) ;;
  shown <- gets (fun h => showPatientIframe (app h)) ;;
  console_log [VString (lit "togglePatientIframe called - new state:");
               VBool shown] ;;
  if shown then
    updateIframeUrls ;;
    setTimeout (SendToken Patient) SETTLE_DELAY
  else ret tt.

Definition toggleStaffIframe : M unit :=
  modify (with_app (fun a =>
    set_showStaffIframe (negb (showStaffIframe a)) a)) ;;
  shown <- gets (fun h => showStaffIframe (app h)) ;;
  console_log [VString (lit "toggleStaffIframe called - new state:");
               VBool shown] ;;
  if shown then
    updateIframeUrls ;;
    setTimeout (SendToken Staff) SETTLE_DELAY
  else ret tt.

Definition toggle (type : frame) : M unit :=
  match type with
  | Patient => togglePatientIframe
  | Staff => toggleStaffIframe
  end.

Definition onLogin : M unit :=
  t <- gets (fun h => token (app h)) ;;
  match t with
  | _ :: _ =>
      Guarded.setToken t ;;
      alert (lit "Token set successfully!") ;;
      updateIframeUrls ;;
      modify (with_app (set_token []))
  | [] => ret tt
  end.

(** [this.cdr.detectChanges()] *)
Definition detectChanges : M unit :=
  modify (with_env (fun e => set_view_flushes (S (view_flushes e)) e)).

(** [this.ngZone.run(fn)] runs [fn] at once. *)
Definition ngZone_run (fn : M unit) : M unit := fn.

(** The type tags of the close requests. *)
Definition CLOSE_PATIENT_IFRAME : jsstring := lit "CLOSE_PATIENT_IFRAME".
Definition CLOSE_STAFF_IFRAME : jsstring := lit "CLOSE_STAFF_IFRAME".

(** The listener [setupMessageListener] installs on [window]. *)
Definition onMessage (event : MessageEvent) : M unit :=
  if negb (truthy (data event))
     || negb (jseq (typeof (data event)) (lit "object"))
  then ret tt
  else
    type <- lift (get_prop (data event) (lit "type")) ;;
    (if strict_eq_string type CLOSE_PATIENT_IFRAME then
       console_log [VString (lit "Closing patient iframe")] ;;
       ngZone_run (
         modify (with_app (set_showPatientIframe false)) ;;
         detectChanges)
     else ret tt) ;;
    type <- lift (get_prop (data event) (lit "type")) ;;
    (if strict_eq_string type CLOSE_STAFF_IFRAME then
       console_log [VString (lit "Closing staff iframe")] ;;
       ngZone_run (
         modify (with_app (set_showStaffIframe false)) ;;
         detectChanges)
     else ret tt).

(** [window.addEventListener('message', ...)] *)
Definition setupMessageListener : M unit :=
  in_browser (modify (with_env (fun e =>
    set_message_listeners (S (message_listeners e)) e))).

Definition ngOnInit : M unit :=
  updateIframeUrls ;; setupMessageListener.

(** Every installed listener receives the event. *)
Fixpoint deliver_to (listeners : nat) (event : MessageEvent) : M unit :=
  match listeners with
  | O => ret tt
  | S n => onMessage event ;; deliver_to n event
  end.

Definition deliver (event : MessageEvent) : M unit :=
  n <- gets (fun h => message_listeners (env h)) ;;
  deliver_to n event.

(** ** Vocabulary of the statements *)

(** Unicode scalar values: code points that are not surrogates. *)
Definition scalar (cp : N) : Prop :=
  cp < 0x110000 /\ ~ (0xD800 <= cp <= 0xDFFF).

(** The type tag of a message: the string held by the [type] property of
    an object. *)
Definition message_type (event : MessageEvent) : option jsstring :=
  match data event with
  | VObject props =>
      match lookup_prop (lit "type") props with
      | VString s => Some s
      | _ => None
      end
  | _ => None
  end.

(** [v] is a structured object, not a primitive. *)
Definition is_object (v : js_value) : bool :=
  match v with
  | VObject _ => true
  | _ => false
  end.

(** The state after the receiver has closed a frame. *)
Definition closed (type : frame) (h : Host) : Host :=
  let line := match type with
              | Patient => lit "Closing patient iframe"
              | Staff => lit "Closing staff iframe"
              end in
  let hide := match type with
              | Patient => set_showPatientIframe false
              | Staff => set_showStaffIframe false
              end in
  {| app := hide (app h);
     env := set_view_flushes (S (view_flushes (env h)))
              (set_console (console (env h) ++ [[VString line]]) (env h)) |}.

(** A browser page with both frames shown and one listener installed. *)
Definition shown_host : Host :=
  {| app := set_showStaffIframe true (set_showPatientIframe true initial_app);
     env := {| platformId := Browser; now := 1793000000000; cookies := [];
               patient_window := true; staff_window := true;
               timers := []; posted := []; console := []; alerts := [];
               view_flushes := 0; message_listeners := 1 |} |}.

(** A close request sent by a page of another origin. *)
Definition forged_close : MessageEvent :=
  {| origin := lit "https://evil.example";
     data := VObject [(lit "type", VString CLOSE_PATIENT_IFRAME)] |}.

(** The close request of a frame, sent from the frame's origin. *)
Definition close_request (type : frame) : MessageEvent :=
  {| origin := FRAME_ORIGIN;
     data := VObject [(lit "type",
                       VString match type with
                               | Patient => CLOSE_PATIENT_IFRAME
                               | Staff => CLOSE_STAFF_IFRAME
                               end)] |}.

(** A message with a type tag the receiver does not know. *)
Definition other_request : MessageEvent :=
  {| origin := FRAME_ORIGIN;
     data := VObject [(lit "type", VString (lit "AUTH_TOKEN"))] |}.

(** The token read, in closed form. *)
Definition token_of (p : platform) (jar : list (jsstring * jsstring))
  : result (option jsstring) :=
  match p with
  | Browser =>
      rmap (fun d => find_token (TOKEN_KEY ++ lit "=") (split SEMICOLON d))
           (decodeURIComponent (cookie_string jar))
  | Server => Ok None
  end.

(** The page while it is rendered on the server. *)
Definition server_host : Host :=
  {| app := initial_app;
     env := {| platformId := Server; now := 1793000000000; cookies := [];
               patient_window := false; staff_window := false;
               timers := []; posted := []; console := []; alerts := [];
               view_flushes := 0; message_listeners := 0 |} |}.

(** A freshly loaded browser page with the given cookies. *)
Definition browser_host (jar : list (jsstring * jsstring)) : Host :=
  {| app := initial_app;
     env := {| platformId := Browser; now := 1793000000000; cookies := jar;
               patient_window := true; staff_window := true;
               timers := []; posted := []; console := []; alerts := [];
               view_flushes := 0; message_listeners := 1 |} |}.

(** [getToken()] after [setToken(t)] *)
Definition set_then_get (t : jsstring) : M (option jsstring) :=
  Unguarded.setToken t ;; Unguarded.getToken.

(** The state after both frame URLs have been assigned. *)
Definition with_urls (p s : jsstring) (h : Host) : Host :=
  with_app (fun a =>
    set_staffIframeUrl (bypassSecurityTrustResourceUrl s)
      (set_patientIframeUrl (bypassSecurityTrustResourceUrl p) a)) h.

(** Two states that differ at most in the two composed URLs. *)
Definition same_but_urls (h h' : Host) : Prop :=
  env h' = env h
  /\ token (app h') = token (app h)
  /\ showPatientIframe (app h') = showPatientIframe (app h)
  /\ showStaffIframe (app h') = showStaffIframe (app h)
  /\ patientUrl (app h') = patientUrl (app h)
  /\ staffUrl (app h') = staffUrl (app h).

(** Two states that differ at most in the two visibility flags, the
    console and the count of view refreshes. *)
Definition same_but_view (h h' : Host) : Prop :=
  token (app h') = token (app h)
  /\ patientIframeUrl (app h') = patientIframeUrl (app h)
  /\ staffIframeUrl (app h') = staffIframeUrl (app h)
  /\ patientUrl (app h') = patientUrl (app h)
  /\ staffUrl (app h') = staffUrl (app h)
  /\ platformId (env h') = platformId (env h)
  /\ now (env h') = now (env h)
  /\ cookies (env h') = cookies (env h)
  /\ patient_window (env h') = patient_window (env h)
  /\ staff_window (env h') = staff_window (env h)
  /\ timers (env h') = timers (env h)
  /\ posted (env h') = posted (env h)
  /\ alerts (env h') = alerts (env h)
  /\ message_listeners (env h') = message_listeners (env h).

(** The visibility flag of a frame. *)
Definition visible (type : frame) (h : Host) : bool :=
  match type with
  | Patient => showPatientIframe (app h)
  | Staff => showStaffIframe (app h)
  end.

(** The state after the flag of a frame has been flipped and the new
    value logged. *)
Definition flipped (type : frame) (h : Host) : Host :=
  let shown := negb (visible type h) in
  let line := match type with
              | Patient => lit "togglePatientIframe called - new state:"
              | Staff => lit "toggleStaffIframe called - new state:"
              end in
  let flip := match type with
              | Patient => set_showPatientIframe shown
              | Staff => set_showStaffIframe shown
              end in
  {| app := flip (app h);
     env := set_console (console (env h) ++ [[VString line; VBool shown]])
              (env h) |}.

(** The state after one more send has been scheduled. *)
Definition scheduled (type : frame) (h : Host) : Host :=
  with_env (fun e =>
    set_timers (timers e ++ [(SETTLE_DELAY, SendToken type)]) e) h.

(** The state after the token has been written and acknowledged. *)
Definition logged_in (t : jsstring) (h : Host) : Host :=
  with_env (fun e =>
    set_alerts (alerts e ++ [lit "Token set successfully!"])
      (set_cookies
         (store_cookie {| cw_text := TOKEN_KEY ++ EQUALS :: t;
                          cw_expires := now e + THIRTY_DAYS |}
                       (now e) (cookies e)) e)) h.

(** The user has typed [t] into the token field. *)
Definition typing (t : jsstring) (h : Host) : Host :=
  with_app (set_token t) h.

(** A token is storable when a browser accepts it whole: it has no [';']
    and no control character, its surrogates are paired, and without its
    surrounding spaces it is within the size limit together with the name
    of the cookie. *)
Definition storable (t : jsstring) : Prop :=
  Forall (fun c => c <> SEMICOLON /\ is_ctl c = false) t
  /\ well_formed t = true
  /\ octets TOKEN_KEY + octets (strip is_wsp t) <= COOKIE_LIMIT.

(** A value in the jar is readable when [getToken] gives it back as it is:
    it has no [';'] and no ['%'] and does not end with white space. *)
Definition readable (v : jsstring) : Prop :=
  Forall (fun c => c <> SEMICOLON /\ c <> PERCENT) v
  /\ (forall c r, rev v = c :: r -> is_white c = false).

(** A token is writable when a browser stores it as it is written: it has
    no [';'] and no control character, its surrogates are paired, it is
    within the size limit together with the name of the cookie, and it
    neither starts nor ends with a space or tab. *)
Definition writable (t : jsstring) : Prop :=
  Forall (fun c => c <> SEMICOLON /\ is_ctl c = false) t
  /\ well_formed t = true
  /\ octets TOKEN_KEY + octets t <= COOKIE_LIMIT
  /\ (forall c r, t = c :: r -> is_wsp c = false)
  /\ (forall c r, rev t = c :: r -> is_wsp c = false).

(** A token is plain when it is writable, has no ['%'] and does not end
    with white space. *)
Definition plain (t : jsstring) : Prop :=
  writable t
  /\ Forall (fun c => c <> PERCENT) t
  /\ (forall c r, rev t = c :: r -> is_white c = false).

(** A cookie is tame when its text has no [';'] and no ['%'] and, unless it
    is the token's own, does not read as the token's. *)
Definition tame (e : jsstring * jsstring) : Prop :=
  Forall (fun c => c <> SEMICOLON /\ c <> PERCENT) (entry e)
  /\ (jseq (fst e) TOKEN_KEY = false ->
      starts_with (TOKEN_KEY ++ lit "=") (trim (entry e)) = false).

(** ** Further vocabulary *)

(** The cookies of the page that are not the token's. *)
Definition others (jar : list (jsstring * jsstring))
  : list (jsstring * jsstring) :=
  filter (fun e => negb (jseq (fst e) TOKEN_KEY)) jar.

(** The value the browser reads from the text of a token: what is in front
    of its first [';'], without surrounding spaces and tabs. *)
Definition stored (t : jsstring) : jsstring :=
  strip is_wsp (take_until SEMICOLON t).

(** The state with another cookie jar. *)
Definition with_cookies (jar : list (jsstring * jsstring)) (h : Host) : Host :=
  with_env (set_cookies jar) h.

(** A cookie of another name, as a browser keeps it: it has a name, which
    is not the token's, has no ['='] and does not start with white space. *)
Definition foreign (e : jsstring * jsstring) : Prop :=
  fst e <> []
  /\ jseq (fst e) TOKEN_KEY = false
  /\ Forall (fun c => c <> EQUALS) (fst e)
  /\ (forall c r, fst e = c :: r -> is_white c = false).

(** A page with one cookie of another name. *)
Definition page : Host := browser_host [(lit "lang", lit "en")].

(** A page with two cookies that resemble the token's. *)
Definition lookalikes : Host :=
  browser_host [(lit "authToken2", lit "x"); (lit "note", lit "authToken=y")].

(** Whether the element of a frame is there, with its window. *)
Definition window_of (type : frame) (h : Host) : bool :=
  match type with
  | Patient => patient_window (env h)
  | Staff => staff_window (env h)
  end.

(** The state after the token [t] has been posted into a frame. *)
Definition posting (type : frame) (t : jsstring) (h : Host) : Host :=
  with_env (fun e =>
    set_posted (posted e ++ [{| post_frame := type;
                               post_message := AUTH_TOKEN t;
                               post_target := FRAME_ORIGIN |}]) e) h.

(** The other frame. *)
Definition other (type : frame) : frame :=
  match type with
  | Patient => Staff
  | Staff => Patient
  end.

(** The state after one more message listener has been installed. *)
Definition listening (h : Host) : Host :=
  with_env (fun e => set_message_listeners (S (message_listeners e)) e) h.

(** The code units [encodeURIComponent] writes: the unreserved ones and
    ['%']. *)
Definition url_safe (c : N) : bool := unreserved c || (c =? PERCENT).

(** The state after the sender of the local build has posted the token
    [t] into a frame. *)
Definition posting_local (type : frame) (t : jsstring) (h : Host) : Host :=
  with_env (fun e =>
    set_posted (posted e ++ [{| post_frame := type;
                               post_message := AUTH_TOKEN t;
                               post_target := Local.FRAME_ORIGIN |}]) e) h.

(** The state with the flag of a frame flipped, and nothing else. *)
Definition flip_only (type : frame) (h : Host) : Host :=
  with_app (match type with
            | Patient => set_showPatientIframe (negb (visible type h))
            | Staff => set_showStaffIframe (negb (visible type h))
            end) h.

(** The response headers the proxies of [server.ts] forward: the headers
    set on the response by the [forEach] loop, before [res.send] sets
    those of the body it writes ([Content-Length] among them). *)
Module Proxy.

(** [String.prototype.toLowerCase] on the ASCII text of a header name. *)
Definition toLowerCase (s : jsstring) : jsstring :=
  List.map (fun c => if (65 <=? c) && (c <=? 90) then c + 32 else c) s.

(** The test of the [forEach] callback: the header is neither
    [content-encoding] nor [transfer-encoding]. *)
Definition forwarded (key : jsstring) : bool :=
  negb (jseq (toLowerCase key) (lit "content-encoding"))
  && negb (jseq (toLowerCase key) (lit "transfer-encoding")).

(** [res.setHeader(key, value)]: header names are matched without regard
    to case, and a header set again takes the new value. *)
Fixpoint setHeader (key value : jsstring) (out : list (jsstring * jsstring))
  : list (jsstring * jsstring) :=
  match out with
  | [] => [(key, value)]
  | (k, v) :: r =>
      if jseq (toLowerCase k) (toLowerCase key) then (key, value) :: r
      else (k, v) :: setHeader key value r
  end.

(** [res.getHeader(name)] *)
Fixpoint getHeader (name : jsstring) (out : list (jsstring * jsstring))
  : option jsstring :=
  match out with
  | [] => None
  | (k, v) :: r =>
      if jseq (toLowerCase k) (toLowerCase name) then Some v
      else getHeader name r
  end.

(** [response.headers.forEach((value, key) => { ... })] over the headers
    of the backend's response, in the order they are visited. *)
Fixpoint forward_headers (headers out : list (jsstring * jsstring))
  : list (jsstring * jsstring) :=
  match headers with
  | [] => out
  | (key, value) :: rest =>
      forward_headers rest
        (if forwarded key then setHeader key value out else out)
  end.

(** The last value the backend gave a header, whatever the case of its
    name. *)
Fixpoint last_value (name : jsstring) (headers : list (jsstring * jsstring))
  : option jsstring :=
  match headers with
  | [] => None
  | (k, v) :: rest =>
      match last_value name rest with
      | Some w => Some w
      | None =>
          if jseq (toLowerCase k) (toLowerCase name) then Some v else None
      end
  end.

End Proxy.

(** * Properties *)

Ltac nbool :=
  repeat match goal with
  | H : _ && _ = true |- _ => apply andb_true_iff in H; destruct H
  | H : _ && _ = false |- _ => apply andb_false_iff in H; destruct H
  | H : _ || _ = true |- _ => apply orb_true_iff in H; destruct H
  | H : _ || _ = false |- _ => apply orb_false_iff in H; destruct H
  | H : negb _ = true |- _ => apply negb_true_iff in H
  | H : negb _ = false |- _ => apply negb_false_iff in H
  | H : (_ <=? _) = true |- _ => apply N.leb_le in H
  | H : (_ <=? _) = false |- _ => apply N.leb_gt in H
  | H : (_ <? _) = true |- _ => apply N.ltb_lt in H
  | H : (_ <? _) = false |- _ => apply N.ltb_ge in H
  | H : (_ =? _) = true |- _ => apply N.eqb_eq in H
  | H : (_ =? _) = false |- _ => apply N.eqb_neq in H
  end.

Lemma hexval_hexdig d : d < 16 -> hexval (hexdig d) = Some d.
Proof.
  intros H. unfold hexdig, hexval.
  destruct (d <? 10) eqn:E; nbool.
  - replace ((48 <=? 48 + d) && (48 + d <=? 57)) with true.
    + f_equal. lia.
    + symmetry. apply andb_true_iff. split; [apply N.leb_le | apply N.leb_le]; lia.
  - replace ((48 <=? 55 + d) && (55 + d <=? 57)) with false.
    + replace ((65 <=? 55 + d) && (55 + d <=? 70)) with true.
      * f_equal. lia.
      * symmetry. apply andb_true_iff. split; apply N.leb_le; lia.
    + symmetry. apply andb_false_iff. right. apply N.leb_gt. lia.
Qed.

Lemma octet_escape b :
  b < 256 -> octet (hexdig (b / 16)) (hexdig (b mod 16)) = Some b.
Proof.
  intros H. unfold octet.
  rewrite !hexval_hexdig.
  - f_equal. symmetry. apply N.div_mod. lia.
  - apply N.mod_lt. lia.
  - apply N.Div0.div_lt_upper_bound. lia.
Qed.

Lemma continuation_escape x :
  x < 64 ->
  continuation PERCENT (hexdig ((0x80 + x) / 16)) (hexdig ((0x80 + x) mod 16))
  = Some x.
Proof.
  intros H. unfold continuation. rewrite N.eqb_refl.
  rewrite octet_escape by lia.
  replace ((0x80 <=? 0x80 + x) && (0x80 + x <? 0xC0)) with true.
  - f_equal. lia.
  - symmetry. apply andb_true_iff. split; [apply N.leb_le | apply N.ltb_lt]; lia.
Qed.

Ltac ncase c := destruct c eqn:?; nbool; try lia.

Lemma decode_escape_cp cp k :
  scalar cp ->
  decodeURIComponent (escape_cp cp ++ k)
  = rmap (List.app (units cp)) (decodeURIComponent k).
Proof.
  intros [Hlt Hns]. unfold escape_cp, utf8.
  destruct (cp <? 0x80) eqn:E1; nbool.
  { cbn [flat_map escape List.app decodeURIComponent].
    rewrite N.eqb_refl. cbn [negb].
    rewrite octet_escape by lia.
    replace (cp <? 0x80) with true by (symmetry; apply N.ltb_lt; lia).
    unfold units. replace (cp <? 0x10000) with true by (symmetry; apply N.ltb_lt; lia).
    destruct (decodeURIComponent k); reflexivity. }
  destruct (cp <? 0x800) eqn:E2; nbool.
  { assert (Hq : cp / 64 < 32) by (apply N.Div0.div_lt_upper_bound; lia).
    assert (Hr : cp mod 64 < 64) by (apply N.mod_lt; lia).
    pose proof (N.div_mod cp 64 ltac:(lia)) as Hd.
    cbn [flat_map escape List.app decodeURIComponent].
    rewrite N.eqb_refl. cbn [negb].
    rewrite octet_escape by lia.
    replace (0xC0 + cp / 64 <? 0x80) with false by (symmetry; apply N.ltb_ge; lia).
    replace (0xC0 + cp / 64 <? 0xC0) with false by (symmetry; apply N.ltb_ge; lia).
    replace (0xC0 + cp / 64 <? 0xE0) with true by (symmetry; apply N.ltb_lt; lia).
    fold PERCENT. rewrite continuation_escape by lia.
    unfold cp2.
    replace ((0xC0 + cp / 64 - 0xC0) * 64 + cp mod 64) with cp by lia.
    replace (0x80 <=? cp) with true by (symmetry; apply N.leb_le; lia).
    reflexivity. }
  destruct (cp <? 0x10000) eqn:E3; nbool.
  { assert (Hq : cp / 4096 < 16) by (apply N.Div0.div_lt_upper_bound; lia).
    assert (Hr1 : (cp / 64) mod 64 < 64) by (apply N.mod_lt; lia).
    assert (Hr2 : cp mod 64 < 64) by (apply N.mod_lt; lia).
    pose proof (N.div_mod cp 64 ltac:(lia)) as Hd.
    pose proof (N.div_mod (cp / 64) 64 ltac:(lia)) as Hd'.
    assert (Hdd : cp / 64 / 64 = cp / 4096) by (rewrite N.Div0.div_div; reflexivity).
    cbn [flat_map escape List.app decodeURIComponent].
    rewrite N.eqb_refl. cbn [negb].
    rewrite octet_escape by lia.
    replace (0xE0 + cp / 4096 <? 0x80) with false by (symmetry; apply N.ltb_ge; lia).
    replace (0xE0 + cp / 4096 <? 0xC0) with false by (symmetry; apply N.ltb_ge; lia).
    replace (0xE0 + cp / 4096 <? 0xE0) with false by (symmetry; apply N.ltb_ge; lia).
    replace (0xE0 + cp / 4096 <? 0xF0) with true by (symmetry; apply N.ltb_lt; lia).
    fold PERCENT. rewrite !continuation_escape by lia.
    unfold cp3.
    replace ((0xE0 + cp / 4096 - 0xE0) * 4096 + (cp / 64) mod 64 * 64 + cp mod 64)
      with cp by lia.
    replace (0x800 <=? cp) with true by (symmetry; apply N.leb_le; lia).
    replace ((0xD800 <=? cp) && (cp <=? 0xDFFF)) with false.
    - reflexivity.
    - symmetry. apply andb_false_iff.
      destruct (N.le_gt_cases 0xD800 cp); [right; apply N.leb_gt | left; apply N.leb_gt]; lia. }
  { assert (Hq : cp / 262144 < 8) by (apply N.Div0.div_lt_upper_bound; lia).
    assert (Hr0 : (cp / 4096) mod 64 < 64) by (apply N.mod_lt; lia).
    assert (Hr1 : (cp / 64) mod 64 < 64) by (apply N.mod_lt; lia).
    assert (Hr2 : cp mod 64 < 64) by (apply N.mod_lt; lia).
    pose proof (N.div_mod cp 64 ltac:(lia)) as Hd.
    pose proof (N.div_mod (cp / 64) 64 ltac:(lia)) as Hd'.
    pose proof (N.div_mod (cp / 4096) 64 ltac:(lia)) as Hd''.
    assert (Hdd : cp / 64 / 64 = cp / 4096) by (rewrite N.Div0.div_div; reflexivity).
    assert (Hddd : cp / 4096 / 64 = cp / 262144) by (rewrite N.Div0.div_div; reflexivity).
    cbn [flat_map escape List.app decodeURIComponent].
    rewrite N.eqb_refl. cbn [negb].
    rewrite octet_escape by lia.
    replace (0xF0 + cp / 262144 <? 0x80) with false by (symmetry; apply N.ltb_ge; lia).
    replace (0xF0 + cp / 262144 <? 0xC0) with false by (symmetry; apply N.ltb_ge; lia).
    replace (0xF0 + cp / 262144 <? 0xE0) with false by (symmetry; apply N.ltb_ge; lia).
    replace (0xF0 + cp / 262144 <? 0xF0) with false by (symmetry; apply N.ltb_ge; lia).
    replace (0xF0 + cp / 262144 <? 0xF8) with true by (symmetry; apply N.ltb_lt; lia).
    fold PERCENT. rewrite !continuation_escape by lia.
    unfold cp4.
    replace ((0xF0 + cp / 262144 - 0xF0) * 262144 + (cp / 4096) mod 64 * 4096
             + (cp / 64) mod 64 * 64 + cp mod 64) with cp by lia.
    replace (0x10000 <=? cp) with true by (symmetry; apply N.leb_le; lia).
    replace (cp <=? 0x10FFFF) with true by (symmetry; apply N.leb_le; lia).
    reflexivity. }
Qed.

Lemma well_formed_ind (P : jsstring -> Prop) :
  P [] ->
  (forall c r, is_high c = false -> is_low c = false -> c < 0x10000 ->
               well_formed r = true -> P r -> P (c :: r)) ->
  (forall hi lo r, is_high hi = true -> is_low lo = true ->
                   well_formed r = true -> P r -> P (hi :: lo :: r)) ->
  forall s, well_formed s = true -> P s.
Proof.
  intros Hnil Hone Hpair.
  assert (H : forall n s, (List.length s <= n)%nat -> well_formed s = true -> P s).
  { induction n as [|n IH]; intros s Hlen Hwf.
    - destruct s; [exact Hnil | simpl in Hlen; lia].
    - destruct s as [|c r]; [exact Hnil|].
      simpl in Hwf, Hlen.
      destruct (is_high c) eqn:Eh.
      + destruct r as [|lo r']; [discriminate|].
        apply andb_true_iff in Hwf. destruct Hwf as [Hlo Hwf].
        apply Hpair; auto. apply IH; auto. simpl in Hlen. lia.
      + destruct (is_low c) eqn:El; [discriminate|].
        apply andb_true_iff in Hwf. destruct Hwf as [Hc Hwf].
        apply Hone; auto.
        * apply N.ltb_lt; exact Hc.
        * apply IH; auto. lia. }
  intros s. apply (H (List.length s)). lia.
Qed.

Lemma unreserved_not_percent c : unreserved c = true -> (c =? PERCENT) = false.
Proof.
  intros H. apply N.eqb_neq. intros ->. discriminate H.
Qed.

Lemma pair_cp_scalar hi lo :
  is_high hi = true -> is_low lo = true ->
  scalar (pair_cp hi lo) /\ units (pair_cp hi lo) = [hi; lo].
Proof.
  unfold is_high, is_low, scalar, pair_cp, units. intros Hh Hl. nbool.
  split; [lia|].
  replace (0x10000 + (hi - 0xD800) * 0x400 + (lo - 0xDC00) <? 0x10000)
    with false by (symmetry; apply N.ltb_ge; lia).
  replace (0x10000 + (hi - 0xD800) * 0x400 + (lo - 0xDC00) - 0x10000)
    with ((lo - 0xDC00) + (hi - 0xD800) * 0x400) by lia.
  rewrite N.div_add by lia. rewrite N.Div0.mod_add.
  rewrite N.div_small by lia. rewrite N.mod_small by lia.
  repeat f_equal; lia.
Qed.

Lemma bmp_scalar c :
  is_high c = false -> is_low c = false -> c < 0x10000 ->
  scalar c /\ units c = [c].
Proof.
  unfold is_high, is_low, scalar, units. intros Hh Hl Hc.
  replace (c <? 0x10000) with true by (symmetry; apply N.ltb_lt; lia).
  split; [|reflexivity]. nbool; lia.
Qed.

(** Encoding a well-formed string succeeds and decoding the result gives
    the string back. *)
Theorem decode_encode (s : jsstring) :
  well_formed s = true ->
  exists e, encodeURIComponent s = Ok e /\ decodeURIComponent e = Ok s.
Proof.
  revert s. apply well_formed_ind.
  - exists []. split; reflexivity.
  - intros c r Hh Hl Hc Hwf [e [He Hd]].
    cbn [encodeURIComponent]. rewrite He, Hh, Hl.
    destruct (unreserved c) eqn:Eu.
    + exists (c :: e). split; [reflexivity|].
      cbn [decodeURIComponent]. rewrite (unreserved_not_percent c Eu).
      cbn [negb]. rewrite Hd. reflexivity.
    + exists (escape_cp c ++ e). split; [reflexivity|].
      destruct (bmp_scalar c Hh Hl Hc) as [Hs Hu].
      rewrite decode_escape_cp by exact Hs.
      rewrite Hd, Hu. reflexivity.
  - intros hi lo r Hh Hl Hwf [e [He Hd]].
    cbn [encodeURIComponent]. rewrite He, Hh, Hl.
    assert (Eu : unreserved hi = false).
    { unfold is_high in Hh. unfold unreserved. nbool.
      repeat match goal with
      | |- _ || _ = false => apply orb_false_iff; split
      | |- _ && _ = false => apply andb_false_iff; right
      | |- (_ <=? _) = false => apply N.leb_gt; lia
      | |- (_ =? _) = false => apply N.eqb_neq; lia
      end. }
    rewrite Eu.
    exists (escape_cp (pair_cp hi lo) ++ e). split; [reflexivity|].
    destruct (pair_cp_scalar hi lo Hh Hl) as [Hs Hu].
    rewrite decode_escape_cp by exact Hs.
    rewrite Hd, Hu. reflexivity.
Qed.


Example encode_space :
  encodeURIComponent (lit "a b") = Ok (lit "a%20b").
Proof. reflexivity. Qed.

Example decode_space :
  decodeURIComponent (lit "a%20b") = Ok (lit "a b").
Proof. reflexivity. Qed.

Example decode_stray_percent :
  decodeURIComponent (lit "100%") = Throw URIError.
Proof. reflexivity. Qed.

Example encode_euro :
  encodeURIComponent [0x20AC] = Ok (lit "%E2%82%AC").
Proof. reflexivity. Qed.

Example decode_euro :
  decodeURIComponent (lit "%e2%82%ac") = Ok [0x20AC].
Proof. reflexivity. Qed.

Example encode_pair :
  encodeURIComponent [0xD83D; 0xDE00] = Ok (lit "%F0%9F%98%80").
Proof. reflexivity. Qed.

Example decode_pair :
  decodeURIComponent (lit "%F0%9F%98%80") = Ok [0xD83D; 0xDE00].
Proof. reflexivity. Qed.

Example decode_overlong :
  decodeURIComponent (lit "%C0%80") = Throw URIError.
Proof. reflexivity. Qed.


Lemma jseq_eq a b : jseq a b = true <-> a = b.
Proof.
  revert b. induction a as [|x a IH]; intros [|y b]; simpl; split; intros H;
    try reflexivity; try discriminate.
  - apply andb_true_iff in H. destruct H as [Hx Hr].
    apply N.eqb_eq in Hx. apply IH in Hr. congruence.
  - injection H as -> ->. rewrite N.eqb_refl. simpl. apply IH. reflexivity.
Qed.

Lemma jseq_refl a : jseq a a = true.
Proof. apply jseq_eq. reflexivity. Qed.

Lemma jseq_neq a b : a <> b -> jseq a b = false.
Proof.
  intros H. destruct (jseq a b) eqn:E; [|reflexivity].
  apply jseq_eq in E. contradiction.
Qed.

(** *** The message receiver *)

Lemma onMessage_not_object event h :
  is_object (data event) = false -> onMessage event h = (Ok tt, h).
Proof.
  intros H. unfold onMessage.
  replace (negb (truthy (data event))
           || negb (jseq (typeof (data event)) (lit "object"))) with true.
  - reflexivity.
  - destruct (data event) as [| |b|n|s|props]; try discriminate H;
      cbn; rewrite ?orb_true_r; reflexivity.
Qed.

Lemma onMessage_object o props h :
  onMessage {| origin := o; data := VObject props |} h =
  let v := lookup_prop (lit "type") props in
  let h1 := if strict_eq_string v CLOSE_PATIENT_IFRAME
            then closed Patient h else h in
  (Ok tt, if strict_eq_string v CLOSE_STAFF_IFRAME then closed Staff h1 else h1).
Proof.
  unfold onMessage. cbn [data truthy typeof negb orb].
  rewrite jseq_refl. cbn [negb orb get_prop].
  fold CLOSE_PATIENT_IFRAME CLOSE_STAFF_IFRAME.
  cbv beta iota delta [bind lift].
  destruct (strict_eq_string (lookup_prop (lit "type") props) CLOSE_PATIENT_IFRAME);
  destruct (strict_eq_string (lookup_prop (lit "type") props) CLOSE_STAFF_IFRAME);
  reflexivity.
Qed.

Lemma strict_eq_string_true v s :
  strict_eq_string v s = true <-> v = VString s.
Proof.
  destruct v; simpl; split; intros H; try discriminate.
  - apply jseq_eq in H. congruence.
  - injection H as ->. apply jseq_refl.
Qed.

Lemma closed_app type h :
  app (closed type h) =
  match type with
  | Patient => set_showPatientIframe false (app h)
  | Staff => set_showStaffIframe false (app h)
  end.
Proof. destruct type; reflexivity. Qed.

(** C4. The receiver dispatches on the type tag. A [CLOSE_PATIENT_IFRAME]
    message sets the patient flag to false and leaves the staff flag as it
    was; a [CLOSE_STAFF_IFRAME] message sets the staff flag to false and
    leaves the patient flag as it was; each logs one line, refreshes the
    view once and touches nothing else. A message of any other type leaves
    the state as it was. *)
Theorem onMessage_dispatch (event : MessageEvent) (h : Host) :
  (message_type event = Some CLOSE_PATIENT_IFRAME ->
     exists h',
       onMessage event h = (Ok tt, h')
       /\ showPatientIframe (app h') = false
       /\ showStaffIframe (app h') = showStaffIframe (app h)
       /\ console (env h')
          = console (env h) ++ [[VString (lit "Closing patient iframe")]]
       /\ view_flushes (env h') = S (view_flushes (env h))
       /\ same_but_view h h')
  /\ (message_type event = Some CLOSE_STAFF_IFRAME ->
     exists h',
       onMessage event h = (Ok tt, h')
       /\ showStaffIframe (app h') = false
       /\ showPatientIframe (app h') = showPatientIframe (app h)
       /\ console (env h')
          = console (env h) ++ [[VString (lit "Closing staff iframe")]]
       /\ view_flushes (env h') = S (view_flushes (env h))
       /\ same_but_view h h')
  /\ (message_type event <> Some CLOSE_PATIENT_IFRAME ->
      message_type event <> Some CLOSE_STAFF_IFRAME ->
      onMessage event h = (Ok tt, h)).
Proof.
  destruct event as [o d]. unfold message_type. cbn [data].
  destruct d as [| |b|n|s|props];
    try (split; [intros H; discriminate H|];
         split; [intros H; discriminate H|];
         intros; apply onMessage_not_object; reflexivity).
  rewrite onMessage_object. cbv zeta.
  destruct (lookup_prop (lit "type") props) as [| |b|n|s|ps] eqn:Ev;
    try (split; [intros H; discriminate H|];
         split; [intros H; discriminate H|];
         intros; reflexivity).
  split; [|split].
  - intros H. injection H as ->.
    eexists. split; [reflexivity|]. repeat split.
  - intros H. injection H as ->.
    eexists. split; [reflexivity|]. repeat split.
  - intros Hp Hs. cbn [strict_eq_string].
    rewrite !jseq_neq by congruence. reflexivity.
Qed.

(** C8. A message whose data is not an object is dropped: the receiver
    returns normally and the state is the one it started from. *)
Theorem onMessage_ignores_primitives (event : MessageEvent) (h : Host) :
  is_object (data event) = false ->
  onMessage event h = (Ok tt, h).
Proof. apply onMessage_not_object. Qed.

(** C10. Whatever the message, the receiver returns normally and can only
    have cleared the two visibility flags: the input field, both frame
    URLs, both base URLs, the cookie jar, the pending timers and the
    messages posted so far are the ones it started from. *)
Theorem onMessage_frame (event : MessageEvent) (h : Host) :
  exists h',
    onMessage event h = (Ok tt, h')
    /\ token (app h') = token (app h)
    /\ patientIframeUrl (app h') = patientIframeUrl (app h)
    /\ staffIframeUrl (app h') = staffIframeUrl (app h)
    /\ patientUrl (app h') = patientUrl (app h)
    /\ staffUrl (app h') = staffUrl (app h)
    /\ cookies (env h') = cookies (env h)
    /\ timers (env h') = timers (env h)
    /\ posted (env h') = posted (env h)
    /\ (showPatientIframe (app h') = showPatientIframe (app h)
        \/ showPatientIframe (app h') = false)
    /\ (showStaffIframe (app h') = showStaffIframe (app h)
        \/ showStaffIframe (app h') = false).
Proof.
  destruct event as [o d].
  destruct (is_object d) eqn:E.
  - destruct d; try discriminate E.
    rewrite onMessage_object. cbv zeta.
    eexists. split; [reflexivity|].
    destruct (strict_eq_string (lookup_prop (lit "type") props) CLOSE_PATIENT_IFRAME);
    destruct (strict_eq_string (lookup_prop (lit "type") props) CLOSE_STAFF_IFRAME);
    cbn; repeat split; auto.
  - exists h. split; [apply onMessage_not_object; exact E|].
    repeat split; auto.
Qed.

(** C1, as the code has it. The receiver does not check [event.origin]:
    a message from any origin, also one that differs from the frame's
    origin, is handled as the same data sent from the frame's origin.
    It leaves the state as it was when its data is not an object or its
    type is neither of the two close requests; with the type
    [CLOSE_PATIENT_IFRAME] (or [CLOSE_STAFF_IFRAME]) it sets the patient
    (or staff) flag to false. *)
Theorem onMessage_any_origin (o : jsstring) (d : js_value) (h : Host) :
  let event := {| origin := o; data := d |} in
  onMessage event h = onMessage {| origin := FRAME_ORIGIN; data := d |} h
  /\ (is_object d = false -> onMessage event h = (Ok tt, h))
  /\ (message_type event <> Some CLOSE_PATIENT_IFRAME ->
      message_type event <> Some CLOSE_STAFF_IFRAME ->
      onMessage event h = (Ok tt, h))
  /\ (message_type event = Some CLOSE_PATIENT_IFRAME ->
      exists h',
        onMessage event h = (Ok tt, h')
        /\ showPatientIframe (app h') = false
        /\ showStaffIframe (app h') = showStaffIframe (app h))
  /\ (message_type event = Some CLOSE_STAFF_IFRAME ->
      exists h',
        onMessage event h = (Ok tt, h')
        /\ showStaffIframe (app h') = false
        /\ showPatientIframe (app h') = showPatientIframe (app h)).
Proof.
  cbv zeta. split; [reflexivity|].
  split; [intros H; apply onMessage_not_object; exact H|].
  unfold message_type. cbn [data].
  destruct d as [| |b|n|s|props];
    try (split; [intros; apply onMessage_not_object; reflexivity|];
         split; intros H; discriminate H).
  rewrite onMessage_object. cbv zeta.
  destruct (lookup_prop (lit "type") props) as [| |b|n|s|ps];
    try (split; [intros; reflexivity|]; split; intros H; discriminate H).
  split; [|split].
  - intros Hp Hs. cbn [strict_eq_string].
    rewrite !jseq_neq by congruence. reflexivity.
  - intros H. injection H as ->.
    eexists. split; [reflexivity|]. split; reflexivity.
  - intros H. injection H as ->.
    eexists. split; [reflexivity|]. split; reflexivity.
Qed.

Lemma onMessage_any_origin_witness :
  jseq (origin forged_close) FRAME_ORIGIN = false
  /\ message_type forged_close = Some CLOSE_PATIENT_IFRAME
  /\ showPatientIframe (app shown_host) = true
  /\ showStaffIframe (app shown_host) = true
  /\ (exists h',
        onMessage forged_close shown_host = (Ok tt, h')
        /\ showPatientIframe (app h') = false
        /\ showStaffIframe (app h') = true)
  /\ is_object (VString (lit "noise")) = false
  /\ onMessage {| origin := lit "https://evil.example";
                  data := VString (lit "noise") |} shown_host
     = (Ok tt, shown_host)
  /\ onMessage {| origin := lit "https://evil.example";
                  data := data other_request |} shown_host
     = (Ok tt, shown_host).
Proof.
  split; [reflexivity|]. split; [reflexivity|].
  split; [reflexivity|]. split; [reflexivity|].
  split.
  - destruct (onMessage_any_origin (lit "https://evil.example")
                (VObject [(lit "type", VString CLOSE_PATIENT_IFRAME)])
                shown_host) as [_ [_ [_ [Hp _]]]].
    destruct (Hp eq_refl) as [h' [E [Hf Hs]]].
    exists h'. split; [exact E|]. split; [exact Hf | exact Hs].
  - split; [reflexivity|]. split.
    + destruct (onMessage_any_origin (lit "https://evil.example")
                  (VString (lit "noise")) shown_host) as [_ [Hn _]].
      exact (Hn eq_refl).
    + destruct (onMessage_any_origin (lit "https://evil.example")
                  (data other_request) shown_host) as [_ [_ [Ho _]]].
      apply Ho; discriminate.
Defined.

(** C1, as stated, fails: a close request from a foreign origin hides the
    patient frame. *)
Lemma onMessage_foreign_origin_closes :
  jseq (origin forged_close) FRAME_ORIGIN = false
  /\ showPatientIframe (app shown_host) = true
  /\ showPatientIframe (app (snd (onMessage forged_close shown_host))) = false
  /\ onMessage forged_close shown_host <> (Ok tt, shown_host).
Proof.
  repeat split; try reflexivity.
  intros H. apply (f_equal (fun p => showPatientIframe (app (snd p)))) in H.
  discriminate H.
Qed.

Lemma onMessage_ignores_primitives_witness :
  is_object (data {| origin := FRAME_ORIGIN;
                     data := VString CLOSE_PATIENT_IFRAME |}) = false
  /\ onMessage {| origin := FRAME_ORIGIN;
                  data := VString CLOSE_PATIENT_IFRAME |} shown_host
     = (Ok tt, shown_host).
Proof.
  split; [reflexivity|].
  apply (onMessage_ignores_primitives
           {| origin := FRAME_ORIGIN; data := VString CLOSE_PATIENT_IFRAME |}
           shown_host).
  reflexivity.
Defined.

Lemma onMessage_dispatch_witness :
  showPatientIframe (app shown_host) = true
  /\ showStaffIframe (app shown_host) = true
  /\ (message_type (close_request Patient) = Some CLOSE_PATIENT_IFRAME
      /\ exists h',
           onMessage (close_request Patient) shown_host = (Ok tt, h')
           /\ showPatientIframe (app h') = false
           /\ showStaffIframe (app h') = true)
  /\ (message_type (close_request Staff) = Some CLOSE_STAFF_IFRAME
      /\ exists h',
           onMessage (close_request Staff) shown_host = (Ok tt, h')
           /\ showStaffIframe (app h') = false
           /\ showPatientIframe (app h') = true)
  /\ message_type other_request = Some (lit "AUTH_TOKEN")
  /\ onMessage other_request shown_host = (Ok tt, shown_host).
Proof.
  destruct (onMessage_dispatch (close_request Patient) shown_host)
    as [Hp _].
  destruct (onMessage_dispatch (close_request Staff) shown_host)
    as [_ [Hs _]].
  destruct (onMessage_dispatch other_request shown_host) as [_ [_ Ho]].
  destruct (Hp eq_refl) as [hp [Ep [Fp [Gp _]]]].
  destruct (Hs eq_refl) as [hs [Es [Fs [Gs _]]]].
  split; [reflexivity|]. split; [reflexivity|].
  split; [split; [reflexivity|]; exists hp; repeat split; assumption|].
  split; [split; [reflexivity|]; exists hs; repeat split; assumption|].
  split; [reflexivity|].
  apply Ho; discriminate.
Defined.

(** *** The token store *)

Lemma read_token_state h : snd (Cookie.read_token h) = h.
Proof.
  unfold Cookie.read_token, document_cookie_get, in_browser, bind, gets, lift, ret.
  destruct (platformId (env h)); [|reflexivity].
  destruct (decodeURIComponent (cookie_string (cookies (env h)))); reflexivity.
Qed.

Lemma getToken_state h : snd (Guarded.getToken h) = h.
Proof.
  unfold Guarded.getToken, bind, gets.
  destruct (platformId (env h)); cbn [isPlatformBrowser].
  - apply read_token_state.
  - reflexivity.
Qed.

Lemma getToken_run h : Guarded.getToken h = (fst (Guarded.getToken h), h).
Proof.
  rewrite <- (getToken_state h) at 3. destruct (Guarded.getToken h); reflexivity.
Qed.

Lemma getToken_fst h :
  fst (Guarded.getToken h) = token_of (platformId (env h)) (cookies (env h)).
Proof.
  unfold Guarded.getToken, Cookie.read_token, document_cookie_get, in_browser,
    bind, gets, lift, ret, token_of.
  destruct (platformId (env h)) eqn:E; cbn [isPlatformBrowser]; [|reflexivity].
  rewrite E.
  destruct (decodeURIComponent (cookie_string (cookies (env h)))); reflexivity.
Qed.

(** The token read depends on the platform and the cookie jar only. *)
Lemma getToken_env h h' :
  platformId (env h) = platformId (env h') ->
  cookies (env h) = cookies (env h') ->
  fst (Guarded.getToken h) = fst (Guarded.getToken h').
Proof.
  intros Hp Hc. rewrite !getToken_fst, Hp, Hc. reflexivity.
Qed.

Lemma hasToken_run h :
  Guarded.hasToken h = (rmap present (fst (Guarded.getToken h)), h).
Proof.
  unfold Guarded.hasToken, bind. rewrite getToken_run.
  destruct (fst (Guarded.getToken h)); reflexivity.
Qed.

(** On a browser the two variants of the service are the same. *)
Lemma guarded_in_browser h :
  platformId (env h) = Browser ->
  (forall t, Guarded.setToken t h = Unguarded.setToken t h)
  /\ Guarded.getToken h = Unguarded.getToken h
  /\ Guarded.removeToken h = Unguarded.removeToken h
  /\ Guarded.hasToken h = Unguarded.hasToken h.
Proof.
  intros Hp.
  assert (Hg : Guarded.getToken h = Unguarded.getToken h).
  { unfold Guarded.getToken, Unguarded.getToken, bind, gets. rewrite Hp. reflexivity. }
  repeat split.
  - intros t. unfold Guarded.setToken, Unguarded.setToken, bind, gets.
    rewrite Hp. reflexivity.
  - exact Hg.
  - unfold Guarded.removeToken, Unguarded.removeToken, bind, gets.
    rewrite Hp. reflexivity.
  - unfold Guarded.hasToken, Unguarded.hasToken, bind. rewrite Hg. reflexivity.
Qed.

(** X8. Outside a browser the guarded service does nothing and reports no
    token. *)
Lemma guarded_outside_browser h :
  platformId (env h) = Server ->
  (forall t, Guarded.setToken t h = (Ok tt, h))
  /\ Guarded.getToken h = (Ok None, h)
  /\ Guarded.removeToken h = (Ok tt, h)
  /\ Guarded.hasToken h = (Ok false, h).
Proof.
  intros Hp.
  unfold Guarded.hasToken, Guarded.setToken, Guarded.getToken,
    Guarded.removeToken, bind, gets.
  rewrite Hp. repeat split.
Qed.

(** Outside a browser every method of the unguarded service stops at its
    first mention of [document]. *)
Lemma unguarded_outside_browser h :
  platformId (env h) = Server ->
  (forall t, Unguarded.setToken t h = (Throw ReferenceError, h))
  /\ Unguarded.getToken h = (Throw ReferenceError, h)
  /\ Unguarded.removeToken h = (Throw ReferenceError, h)
  /\ Unguarded.hasToken h = (Throw ReferenceError, h).
Proof.
  intros Hp.
  unfold Unguarded.hasToken, Unguarded.setToken, Unguarded.getToken,
    Unguarded.removeToken, Cookie.write_token, Cookie.read_token,
    Cookie.expire_token, document_cookie_set, document_cookie_get,
    in_browser, bind, gets.
  rewrite Hp. repeat split.
Qed.

(** C5 fails for [src/app/environment.service.ts]: during server-side
    rendering each of its four methods raises [ReferenceError], where the
    guarded service returns quietly. *)
Theorem unguarded_service_fails_on_server :
  Unguarded.setToken (lit "abc") server_host = (Throw ReferenceError, server_host)
  /\ Unguarded.getToken server_host = (Throw ReferenceError, server_host)
  /\ Unguarded.removeToken server_host = (Throw ReferenceError, server_host)
  /\ Unguarded.hasToken server_host = (Throw ReferenceError, server_host)
  /\ Guarded.setToken (lit "abc") server_host = (Ok tt, server_host)
  /\ Guarded.getToken server_host = (Ok None, server_host)
  /\ Guarded.removeToken server_host = (Ok tt, server_host)
  /\ Guarded.hasToken server_host = (Ok false, server_host).
Proof. repeat split. Qed.

(** C2 fails: a token with a [';'] comes back cut at it, a token with an
    escape sequence comes back decoded, a token with a stray ['%'] cannot
    be read at all, and surrounding blanks are lost; a plain token comes
    back as written, also next to other cookies. *)
Theorem set_then_get_loses_token :
  fst (set_then_get (lit "a;b") (browser_host [])) = Ok (Some (lit "a"))
  /\ fst (set_then_get (lit "a%20b") (browser_host [])) = Ok (Some (lit "a b"))
  /\ fst (set_then_get (lit "100%") (browser_host [])) = Throw URIError
  /\ fst (set_then_get (lit " abc ") (browser_host [])) = Ok (Some (lit "abc"))
  /\ fst (set_then_get (lit "abc") (browser_host [(lit "lang", lit "en")]))
     = Ok (Some (lit "abc")).
Proof. repeat split. Qed.

(** *** The URL composer *)

Lemma updateIframeUrls_ok h t p s :
  fst (Guarded.getToken h) = Ok t ->
  compose (patientUrl (app h)) t = Ok p ->
  compose (staffUrl (app h)) t = Ok s ->
  updateIframeUrls h = (Ok tt, with_urls p s h).
Proof.
  intros Ht Hp Hs. unfold updateIframeUrls, bind.
  rewrite getToken_run, Ht.
  cbv beta iota delta [gets lift modify bind].
  rewrite Hp. cbn. rewrite Hs. reflexivity.
Qed.

Lemma updateIframeUrls_throw h e :
  fst (Guarded.getToken h) = Throw e ->
  updateIframeUrls h = (Throw e, h).
Proof.
  intros Ht. unfold updateIframeUrls, bind.
  rewrite getToken_run, Ht. reflexivity.
Qed.

Lemma compose_absent base t :
  present t = false -> compose base t = Ok base.
Proof.
  destruct t as [[|c r]|]; simpl; intros H; try reflexivity. discriminate.
Qed.

Lemma compose_present base t :
  t <> [] -> well_formed t = true ->
  exists e,
    encodeURIComponent t = Ok e
    /\ decodeURIComponent e = Ok t
    /\ compose base (Some t) = Ok (base ++ lit "?token=" ++ e).
Proof.
  intros Hne Hwf. destruct (decode_encode t Hwf) as [e [He Hd]].
  exists e. repeat split; auto.
  destruct t as [|c r]; [contradiction|].
  unfold compose. rewrite He. reflexivity.
Qed.

(** C3. With no token stored both frame URLs are the base URLs; with a
    token [t] stored they are the base URLs followed by [?token=] and the
    percent-encoding of [t], which decodes to [t]; nothing but the two
    frame URLs changes; the token ["a b"] is written [token=a%20b]. *)
Theorem updateIframeUrls_composes (h : Host) :
  (fst (Guarded.getToken h) = Ok None ->
     exists h',
       updateIframeUrls h = (Ok tt, h')
       /\ patientIframeUrl (app h')
          = Some (TrustedResourceUrl (patientUrl (app h)))
       /\ staffIframeUrl (app h')
          = Some (TrustedResourceUrl (staffUrl (app h)))
       /\ same_but_urls h h')
  /\ (forall t,
        fst (Guarded.getToken h) = Ok (Some t) ->
        fst (Guarded.hasToken h) = Ok true ->
        well_formed t = true ->
        exists e h',
          encodeURIComponent t = Ok e
          /\ decodeURIComponent e = Ok t
          /\ updateIframeUrls h = (Ok tt, h')
          /\ patientIframeUrl (app h')
             = Some (TrustedResourceUrl
                       (patientUrl (app h) ++ lit "?token=" ++ e))
          /\ staffIframeUrl (app h')
             = Some (TrustedResourceUrl
                       (staffUrl (app h) ++ lit "?token=" ++ e))
          /\ same_but_urls h h')
  /\ (forall base,
        compose base (Some (lit "a b")) = Ok (base ++ lit "?token=a%20b")
        /\ decodeURIComponent (lit "a%20b") = Ok (lit "a b")).
Proof.
  split; [|split].
  - intros Ht. eexists. split.
    + apply (updateIframeUrls_ok h None); auto; reflexivity.
    + repeat split.
  - intros t Ht Hhas Hwf.
    assert (Hne : t <> []).
    { rewrite hasToken_run in Hhas. cbn [fst] in Hhas. rewrite Ht in Hhas.
      intros ->. discriminate Hhas. }
    destruct (compose_present (patientUrl (app h)) t Hne Hwf) as [e [He [Hd Hp]]].
    destruct (compose_present (staffUrl (app h)) t Hne Hwf) as [e' [He' [_ Hs]]].
    assert (e' = e) by congruence. subst e'.
    exists e. eexists. split; [exact He|]. split; [exact Hd|]. split.
    + apply (updateIframeUrls_ok h (Some t)); eauto.
    + repeat split.
  - intros base. split; reflexivity.
Qed.

Lemma updateIframeUrls_composes_witness :
  (fst (Guarded.getToken (browser_host [])) = Ok None
   /\ exists h',
        updateIframeUrls (browser_host []) = (Ok tt, h')
        /\ patientIframeUrl (app h')
           = Some (TrustedResourceUrl
                     (lit "https://fe-react-v1.practeaz.workers.dev/patient"))
        /\ staffIframeUrl (app h')
           = Some (TrustedResourceUrl
                     (lit "https://fe-react-v1.practeaz.workers.dev/staff")))
  /\ (fst (Guarded.getToken (browser_host [(TOKEN_KEY, lit "a b")]))
        = Ok (Some (lit "a b"))
      /\ fst (Guarded.hasToken (browser_host [(TOKEN_KEY, lit "a b")]))
         = Ok true
      /\ well_formed (lit "a b") = true
      /\ exists h',
           updateIframeUrls (browser_host [(TOKEN_KEY, lit "a b")])
           = (Ok tt, h')
           /\ patientIframeUrl (app h')
              = Some (TrustedResourceUrl
                        (lit "https://fe-react-v1.practeaz.workers.dev/patient?token=a%20b"))
           /\ staffIframeUrl (app h')
              = Some (TrustedResourceUrl
                        (lit "https://fe-react-v1.practeaz.workers.dev/staff?token=a%20b"))).
Proof.
  split.
  - split; [reflexivity|].
    destruct (updateIframeUrls_composes (browser_host [])) as [H _].
    destruct (H eq_refl) as [h' [E [Hp [Hs _]]]].
    exists h'. split; [exact E|]. split; [exact Hp | exact Hs].
  - destruct (updateIframeUrls_composes (browser_host [(TOKEN_KEY, lit "a b")]))
      as [_ [H _]].
    destruct (H (lit "a b") eq_refl eq_refl eq_refl)
      as [e [h' [He [_ [Hu [Hp [Hs _]]]]]]].
    change (encodeURIComponent (lit "a b")) with (Ok (lit "a%20b")) in He.
    injection He as <-.
    repeat split. exists h'. split; [exact Hu|]. split; [exact Hp | exact Hs].
Defined.

(** C9. An empty stored token counts as no token: [hasToken()] is false,
    the frame URLs are the bare base URLs, and nothing is posted into a
    frame. *)
Theorem empty_token_is_absent (h : Host) :
  fst (Guarded.getToken h) = Ok (Some []) ->
  Guarded.hasToken h = (Ok false, h)
  /\ updateIframeUrls h
     = (Ok tt, with_urls (patientUrl (app h)) (staffUrl (app h)) h)
  /\ (forall type, sendTokenToIframe type h = (Ok tt, h)).
Proof.
  intros Ht. split; [|split].
  - rewrite hasToken_run, Ht. reflexivity.
  - apply (updateIframeUrls_ok h (Some [])); auto.
  - intros type. unfold sendTokenToIframe, bind.
    rewrite getToken_run, Ht. reflexivity.
Qed.

Lemma empty_token_is_absent_witness :
  fst (Guarded.getToken (browser_host [(TOKEN_KEY, [])])) = Ok (Some [])
  /\ Guarded.hasToken (browser_host [(TOKEN_KEY, [])])
     = (Ok false, browser_host [(TOKEN_KEY, [])])
  /\ posted (env (snd (sendTokenToIframe Patient
                         (browser_host [(TOKEN_KEY, [])])))) = [].
Proof.
  destruct (empty_token_is_absent (browser_host [(TOKEN_KEY, [])]) eq_refl)
    as [Hh [_ Hs]].
  split; [reflexivity|]. split; [exact Hh|].
  rewrite (Hs Patient). reflexivity.
Defined.

(** *** The visibility controller *)

Lemma getToken_flipped type h :
  fst (Guarded.getToken (flipped type h)) = fst (Guarded.getToken h).
Proof. apply getToken_env; reflexivity. Qed.

Lemma toggle_unfold type h :
  toggle type h =
  if negb (visible type h)
  then (updateIframeUrls ;; setTimeout (SendToken type) SETTLE_DELAY)
         (flipped type h)
  else (Ok tt, flipped type h).
Proof.
  destruct type;
    unfold toggle, togglePatientIframe, toggleStaffIframe, flipped, visible;
    cbv beta iota delta [bind modify gets console_log with_app with_env];
    cbn [app env showPatientIframe showStaffIframe set_showPatientIframe
         set_showStaffIframe visible];
    [destruct (showPatientIframe (app h)) | destruct (showStaffIframe (app h))];
    reflexivity.
Qed.

(** Hiding a frame flips its flag and nothing else. *)
Lemma toggle_hides type h :
  visible type h = true -> toggle type h = (Ok tt, flipped type h).
Proof. intros H. rewrite toggle_unfold, H. reflexivity. Qed.

(** X11. Showing a frame, when the token can be read: both URLs are composed
    from the token read and one send is scheduled. *)
Lemma toggle_shows type h t p s :
  visible type h = false ->
  fst (Guarded.getToken h) = Ok t ->
  compose (patientUrl (app h)) t = Ok p ->
  compose (staffUrl (app h)) t = Ok s ->
  toggle type h = (Ok tt, scheduled type (with_urls p s (flipped type h))).
Proof.
  intros Hv Ht Hp Hs. rewrite toggle_unfold, Hv. cbn [negb].
  unfold bind at 1.
  rewrite (updateIframeUrls_ok (flipped type h) t p s).
  - reflexivity.
  - rewrite getToken_flipped. exact Ht.
  - destruct type; exact Hp.
  - destruct type; exact Hs.
Qed.

(** X12. Showing a frame, when reading the token raises: the flag is flipped,
    the error escapes, no URL is composed and no send is scheduled. *)
Lemma toggle_throws type h e :
  visible type h = false ->
  fst (Guarded.getToken h) = Throw e ->
  toggle type h = (Throw e, flipped type h).
Proof.
  intros Hv Ht. rewrite toggle_unfold, Hv. cbn [negb].
  unfold bind at 1.
  rewrite (updateIframeUrls_throw (flipped type h) e).
  - reflexivity.
  - rewrite getToken_flipped. exact Ht.
Qed.

(** *** Login *)

Lemma onLogin_empty h :
  token (app h) = [] -> onLogin h = (Ok tt, h).
Proof. intros H. unfold onLogin, bind, gets. rewrite H. reflexivity. Qed.

Lemma onLogin_unfold h :
  platformId (env h) = Browser ->
  token (app h) <> [] ->
  onLogin h =
  (updateIframeUrls ;; modify (with_app (set_token [])))
    (logged_in (token (app h)) h).
Proof.
  intros Hp Hne. unfold onLogin.
  unfold bind at 1. unfold gets at 1.
  destruct (token (app h)) as [|c r] eqn:Et; [contradiction|].
  unfold Guarded.setToken, Cookie.write_token, document_cookie_set, alert,
    in_browser.
  cbv beta iota delta [bind gets modify with_env].
  cbn [env app platformId]. rewrite Hp. cbn [isPlatformBrowser].
  rewrite Hp. cbv beta iota.
  cbn [env app platformId set_cookies]. rewrite Hp.
  reflexivity.
Qed.

(** Login with a token that can be read back: the token is written, both
    URLs are composed from the token read back, the field is cleared and
    the flags are untouched. *)
Lemma onLogin_stores h t p s :
  platformId (env h) = Browser ->
  token (app h) <> [] ->
  fst (Guarded.getToken (logged_in (token (app h)) h)) = Ok t ->
  compose (patientUrl (app h)) t = Ok p ->
  compose (staffUrl (app h)) t = Ok s ->
  onLogin h
  = (Ok tt, with_app (set_token [])
              (with_urls p s (logged_in (token (app h)) h))).
Proof.
  intros Hb Hne Ht Hp Hs. rewrite onLogin_unfold by assumption.
  unfold bind at 1.
  rewrite (updateIframeUrls_ok _ t p s); auto.
Qed.

(** Login with a token that cannot be read back: the token is written and
    acknowledged, then the error escapes. *)
Lemma onLogin_throws h e :
  platformId (env h) = Browser ->
  token (app h) <> [] ->
  fst (Guarded.getToken (logged_in (token (app h)) h)) = Throw e ->
  onLogin h = (Throw e, logged_in (token (app h)) h).
Proof.
  intros Hb Hne Ht. rewrite onLogin_unfold by assumption.
  unfold bind at 1.
  rewrite (updateIframeUrls_throw _ e); auto.
Qed.

(** C7 fails for a token with a stray ['%']: it is written to the jar and
    acknowledged, then reading it back raises, so no URL is composed and
    the field keeps the token.  An empty field does nothing. *)
Theorem onLogin_with_percent_token :
  let h := typing (lit "100%") (browser_host []) in
  onLogin h = (Throw URIError, logged_in (lit "100%") h)
  /\ cookies (env (logged_in (lit "100%") h)) = [(TOKEN_KEY, lit "100%")]
  /\ token (app (logged_in (lit "100%") h)) = lit "100%"
  /\ patientIframeUrl (app (logged_in (lit "100%") h)) = None
  /\ staffIframeUrl (app (logged_in (lit "100%") h)) = None
  /\ onLogin (browser_host []) = (Ok tt, browser_host []).
Proof. repeat split. Qed.

(** C6 fails once a token the store cannot read back is in the jar, as it
    is after a login with the token ["%"]: the patient frame is shown,
    [togglePatientIframe] raises, the frame URL is not composed and no send
    is scheduled.  Hiding the frame again flips the flag and nothing else. *)
Theorem toggle_with_unreadable_token :
  let h := snd (onLogin (typing (lit "%") (browser_host []))) in
  cookies (env h) = [(TOKEN_KEY, lit "%")]
  /\ visible Patient h = false
  /\ toggle Patient h = (Throw URIError, flipped Patient h)
  /\ visible Patient (flipped Patient h) = true
  /\ patientIframeUrl (app (flipped Patient h)) = None
  /\ timers (env (flipped Patient h)) = []
  /\ toggle Patient (flipped Patient h)
     = (Ok tt, flipped Patient (flipped Patient h)).
Proof. repeat split. Qed.

(** *** Tokens that do survive the store *)

Lemma take_until_absent sep s :
  Forall (fun c => c <> sep) s -> take_until sep s = s.
Proof.
  induction 1 as [|c r Hc _ IH]; simpl; [reflexivity|].
  apply N.eqb_neq in Hc. rewrite Hc, IH. reflexivity.
Qed.

Lemma split_absent sep s :
  Forall (fun c => c <> sep) s -> split sep s = [s].
Proof.
  induction 1 as [|c r Hc _ IH]; simpl; [reflexivity|].
  apply N.eqb_neq in Hc. rewrite Hc, IH. reflexivity.
Qed.

Lemma decode_no_percent s :
  Forall (fun c => c <> PERCENT) s -> decodeURIComponent s = Ok s.
Proof.
  induction 1 as [|c r Hc _ IH]; simpl; [reflexivity|].
  apply N.eqb_neq in Hc. rewrite Hc, IH. reflexivity.
Qed.

Lemma strip_id p s :
  (forall c r, s = c :: r -> p c = false) ->
  (forall c r, rev s = c :: r -> p c = false) ->
  strip p s = s.
Proof.
  intros Hh Hl. unfold strip.
  assert (E1 : drop_while p s = s).
  { destruct s as [|c r]; [reflexivity|]. simpl.
    rewrite (Hh c r eq_refl). reflexivity. }
  rewrite E1.
  assert (E2 : drop_while p (rev s) = rev s).
  { destruct (rev s) as [|c r] eqn:E; [reflexivity|]. simpl.
    rewrite (Hl c r eq_refl). reflexivity. }
  rewrite E2. apply rev_involutive.
Qed.

Lemma is_wsp_white c : is_white c = false -> is_wsp c = false.
Proof.
  unfold is_white, is_wsp. intros H.
  repeat (apply orb_false_iff in H; destruct H as [H ?]).
  apply orb_false_iff. split; [assumption|].
  apply N.eqb_neq. intros ->. discriminate.
Qed.

Lemma rev_prefixed (pre t : jsstring) c r :
  rev (pre ++ t) = c :: r ->
  (t = [] /\ rev pre = c :: r) \/ (exists r', rev t = c :: r').
Proof.
  rewrite rev_app_distr. destruct (rev t) as [|x r'] eqn:E.
  - left. split; [|assumption].
    apply (f_equal (@rev N)) in E. rewrite rev_involutive in E. exact E.
  - simpl. intros H. injection H as -> _. right. eauto.
Qed.

Lemma cookie_string_cons e r :
  r <> [] ->
  cookie_string (e :: r) = entry e ++ lit "; " ++ cookie_string r.
Proof.
  destruct r as [|e' r']; [contradiction|]. reflexivity.
Qed.

Lemma cookie_string_one e : cookie_string [e] = entry e.
Proof. reflexivity. Qed.

Lemma jar_put_nonempty name value jar : jar_put name value jar <> [].
Proof.
  destruct jar as [|[n v] r]; simpl; [discriminate|].
  destruct (jseq n name); discriminate.
Qed.

Lemma split_app_sep sep a b :
  Forall (fun c => c <> sep) a ->
  split sep (a ++ sep :: b) = a :: split sep b.
Proof.
  induction 1 as [|c r Hc _ IH]; simpl.
  - rewrite N.eqb_refl. reflexivity.
  - apply N.eqb_neq in Hc. rewrite Hc, IH. reflexivity.
Qed.

Lemma drop_while_white pre s :
  Forall (fun c => is_white c = true) pre ->
  drop_while is_white (pre ++ s) = drop_while is_white s.
Proof.
  induction 1 as [|c r Hc _ IH]; simpl; [reflexivity|].
  rewrite Hc. exact IH.
Qed.

Lemma trim_leading pre s :
  Forall (fun c => is_white c = true) pre -> trim (pre ++ s) = trim s.
Proof.
  intros H. unfold trim, strip. rewrite drop_while_white by exact H.
  reflexivity.
Qed.

Lemma white_not_semicolon pre :
  Forall (fun c => is_white c = true) pre ->
  Forall (fun c => c <> SEMICOLON) pre.
Proof.
  apply Forall_impl. intros c H ->. discriminate H.
Qed.

Lemma plain_entry t :
  readable t ->
  Forall (fun c => c <> SEMICOLON /\ c <> PERCENT) (entry (TOKEN_KEY, t)).
Proof.
  intros [Hall _]. unfold entry. cbn [fst snd].
  apply Forall_app. split; [repeat constructor; discriminate|].
  constructor; [split; discriminate | exact Hall].
Qed.

Lemma trim_token t :
  readable t -> trim (entry (TOKEN_KEY, t)) = entry (TOKEN_KEY, t).
Proof.
  intros [_ Hlast]. unfold trim. apply strip_id.
  - intros c r E. injection E as <- _. reflexivity.
  - intros c r E. unfold entry in E. cbn [fst snd] in E.
    change (TOKEN_KEY ++ EQUALS :: t) with ((TOKEN_KEY ++ [EQUALS]) ++ t) in E.
    apply rev_prefixed in E. destruct E as [[_ E] | [r' E]].
    + injection E as <- _. reflexivity.
    + exact (Hlast c r' E).
Qed.

Lemma find_token_here pre t rest :
  Forall (fun c => is_white c = true) pre ->
  readable t ->
  find_token (TOKEN_KEY ++ lit "=") ((pre ++ entry (TOKEN_KEY, t)) :: rest)
  = Some t.
Proof.
  intros Hpre Ht. cbn [find_token].
  rewrite trim_leading by exact Hpre. rewrite trim_token by exact Ht.
  reflexivity.
Qed.

Lemma no_semicolon s :
  Forall (fun c => c <> SEMICOLON /\ c <> PERCENT) s ->
  Forall (fun c => c <> SEMICOLON) s.
Proof. apply Forall_impl. tauto. Qed.

Lemma no_percent s :
  Forall (fun c => c <> SEMICOLON /\ c <> PERCENT) s ->
  Forall (fun c => c <> PERCENT) s.
Proof. apply Forall_impl. tauto. Qed.

Lemma tame_no_percent jar :
  Forall tame jar -> Forall (fun c => c <> PERCENT) (cookie_string jar).
Proof.
  induction 1 as [|e r [He _] _ IH]; [constructor|].
  destruct r as [|e' r'].
  - rewrite cookie_string_one. apply no_percent. exact He.
  - rewrite cookie_string_cons by discriminate.
    apply Forall_app. split; [apply no_percent; exact He|].
    apply Forall_app. split; [repeat constructor; discriminate | exact IH].
Qed.

Lemma put_no_percent jar t :
  Forall tame jar -> readable t ->
  Forall (fun c => c <> PERCENT) (cookie_string (jar_put TOKEN_KEY t jar)).
Proof.
  intros Hjar Ht. apply tame_no_percent.
  induction Hjar as [|[n v] r He Hr IH]; simpl.
  - constructor; [|constructor]. split; [apply plain_entry; exact Ht|].
    cbn [fst]. rewrite jseq_refl. discriminate.
  - destruct (jseq n TOKEN_KEY) eqn:E.
    + apply jseq_eq in E. subst n. constructor; [|assumption].
      split; [apply plain_entry; exact Ht|].
      cbn [fst]. rewrite jseq_refl. discriminate.
    + constructor; assumption.
Qed.

Lemma find_token_put jar t pre :
  Forall tame jar -> readable t ->
  Forall (fun c => is_white c = true) pre ->
  find_token (TOKEN_KEY ++ lit "=")
    (split SEMICOLON (pre ++ cookie_string (jar_put TOKEN_KEY t jar)))
  = Some t.
Proof.
  intros Hjar Ht. revert pre.
  induction Hjar as [|[n v] r [He Hn] Hr IH]; intros pre Hpre.
  - cbn [jar_put]. rewrite cookie_string_one.
    rewrite split_absent.
    + apply find_token_here; assumption.
    + apply Forall_app. split; [apply white_not_semicolon; exact Hpre|].
      apply no_semicolon, plain_entry. exact Ht.
  - cbn [jar_put]. destruct (jseq n TOKEN_KEY) eqn:E.
    + apply jseq_eq in E. subst n.
      destruct r as [|e' r'].
      * rewrite cookie_string_one. rewrite split_absent.
        -- apply find_token_here; assumption.
        -- apply Forall_app. split; [apply white_not_semicolon; exact Hpre|].
           apply no_semicolon, plain_entry. exact Ht.
      * rewrite cookie_string_cons by discriminate.
        change (lit "; " ++ cookie_string (e' :: r'))
          with (SEMICOLON :: lit " " ++ cookie_string (e' :: r')).
        rewrite app_assoc, split_app_sep.
        -- apply find_token_here; assumption.
        -- apply Forall_app. split; [apply white_not_semicolon; exact Hpre|].
           apply no_semicolon, plain_entry. exact Ht.
    + rewrite cookie_string_cons by apply jar_put_nonempty.
      change (lit "; " ++ cookie_string (jar_put TOKEN_KEY t r))
        with (SEMICOLON :: lit " " ++ cookie_string (jar_put TOKEN_KEY t r)).
      rewrite app_assoc, split_app_sep.
      * cbn [find_token]. rewrite trim_leading by exact Hpre.
        rewrite (Hn E). apply IH. repeat constructor.
      * apply Forall_app. split; [apply white_not_semicolon; exact Hpre|].
        apply no_semicolon. exact He.
Qed.

Lemma usv_well_formed s : well_formed s = true -> usv s = s.
Proof.
  revert s. apply well_formed_ind.
  - reflexivity.
  - intros c r Hh Hl _ _ IH. cbn [usv]. rewrite Hh, Hl, IH. reflexivity.
  - intros hi lo r Hh Hl _ IH. cbn [usv]. rewrite Hh, Hl, IH. reflexivity.
Qed.

Lemma drop_through_absent sep s :
  Forall (fun c => c <> sep) s -> drop_through sep s = None.
Proof.
  induction 1 as [|c r Hc _ IH]; simpl; [reflexivity|].
  apply N.eqb_neq in Hc. rewrite Hc. exact IH.
Qed.

Lemma existsb_absent {A : Type} (p : A -> bool) l :
  Forall (fun c => p c = false) l -> existsb p l = false.
Proof.
  induction 1 as [|c r Hc _ IH]; simpl; [reflexivity|].
  rewrite Hc. exact IH.
Qed.

Lemma Forall_drop_while {P : N -> Prop} p (s : jsstring) :
  Forall P s -> Forall P (drop_while p s).
Proof.
  induction 1 as [|c r Hc Hr IH]; simpl; [constructor|].
  destruct (p c); [exact IH | constructor; assumption].
Qed.

Lemma Forall_strip {P : N -> Prop} p (s : jsstring) :
  Forall P s -> Forall P (strip p s).
Proof.
  intros H. unfold strip.
  apply Forall_rev, Forall_drop_while, Forall_rev, Forall_drop_while. exact H.
Qed.

Lemma storable_text t :
  storable t -> Forall (fun c => c <> SEMICOLON) (TOKEN_KEY ++ EQUALS :: t).
Proof.
  intros [Hall _]. apply Forall_app.
  split; [repeat constructor; discriminate|].
  constructor; [discriminate|]. revert Hall. apply Forall_impl. tauto.
Qed.

Lemma storable_pair t :
  storable t ->
  parse_pair (TOKEN_KEY ++ EQUALS :: t) = Some (TOKEN_KEY, strip is_wsp t).
Proof.
  intros Ht. unfold parse_pair.
  rewrite take_until_absent by (apply storable_text; exact Ht).
  reflexivity.
Qed.

Lemma storable_accepted t :
  storable t ->
  refused (TOKEN_KEY ++ EQUALS :: t) TOKEN_KEY (strip is_wsp t) = false
  /\ attributes (TOKEN_KEY ++ EQUALS :: t) = [].
Proof.
  intros Ht.
  assert (Hattr : attributes (TOKEN_KEY ++ EQUALS :: t) = []).
  { unfold attributes.
    rewrite drop_through_absent by (apply storable_text; exact Ht).
    reflexivity. }
  split; [|exact Hattr].
  unfold refused. rewrite Hattr.
  destruct Ht as [Hall [_ Hsize]].
  assert (Hctl : Forall (fun c => is_ctl c = false) t).
  { revert Hall. apply Forall_impl. tauto. }
  change (existsb is_ctl TOKEN_KEY) with false.
  rewrite (existsb_absent is_ctl (strip is_wsp t))
    by (apply Forall_strip; exact Hctl).
  rewrite existsb_app.
  change (existsb (fun c => is_ctl c && negb (c =? 9)) TOKEN_KEY) with false.
  cbn [existsb orb].
  change (is_ctl EQUALS && negb (EQUALS =? 9)) with false.
  rewrite (existsb_absent (fun c => is_ctl c && negb (c =? 9)) t)
    by (revert Hctl; apply Forall_impl; intros c ->; reflexivity).
  replace (COOKIE_LIMIT <? octets TOKEN_KEY + octets (strip is_wsp t))
    with false by (symmetry; apply N.ltb_ge; exact Hsize).
  reflexivity.
Qed.

(** A storable token is stored without its surrounding spaces. *)
Lemma store_storable t clock expires jar :
  storable t -> clock < expires ->
  store_cookie {| cw_text := TOKEN_KEY ++ EQUALS :: t; cw_expires := expires |}
    clock jar
  = jar_put TOKEN_KEY (strip is_wsp t) jar.
Proof.
  intros Ht Hexp. unfold store_cookie. cbn [cw_text cw_expires].
  assert (Eu : usv (TOKEN_KEY ++ EQUALS :: t) = TOKEN_KEY ++ EQUALS :: t).
  { transitivity (TOKEN_KEY ++ EQUALS :: usv t); [reflexivity|].
    rewrite usv_well_formed by apply Ht. reflexivity. }
  rewrite Eu. cbv zeta. rewrite (storable_pair t Ht).
  destruct (storable_accepted t Ht) as [-> ->].
  cbn [last_max_age].
  replace (expires <=? clock) with false
    by (symmetry; apply N.leb_gt; exact Hexp).
  reflexivity.
Qed.

Lemma writable_strip t : writable t -> strip is_wsp t = t.
Proof.
  intros [_ [_ [_ [Hhd Hlast]]]]. apply strip_id; assumption.
Qed.

Lemma writable_storable t : writable t -> storable t.
Proof.
  intros Ht. pose proof (writable_strip t Ht) as Es.
  destruct Ht as [Hall [Hwf [Hsize _]]].
  split; [exact Hall|]. split; [exact Hwf|]. rewrite Es. exact Hsize.
Qed.

(** A writable token is stored as it is written. *)
Lemma store_writable t clock expires jar :
  writable t -> clock < expires ->
  store_cookie {| cw_text := TOKEN_KEY ++ EQUALS :: t; cw_expires := expires |}
    clock jar
  = jar_put TOKEN_KEY t jar.
Proof.
  intros Ht Hexp.
  rewrite store_storable by (try apply writable_storable; assumption).
  rewrite writable_strip by exact Ht. reflexivity.
Qed.

Lemma plain_writable t : plain t -> writable t.
Proof. intros [H _]. exact H. Qed.

Lemma plain_readable t : plain t -> readable t.
Proof.
  intros [[Hall _] [Hp Hlast]]. split; [|exact Hlast].
  rewrite Forall_forall in *. intros c Hc.
  split; [apply Hall | apply Hp]; exact Hc.
Qed.

(** A plain token written next to tame cookies is read back as written. *)
Theorem set_then_get_among h t :
  platformId (env h) = Browser ->
  Forall tame (cookies (env h)) ->
  plain t ->
  fst (set_then_get t h) = Ok (Some t).
Proof.
  intros Hb Hjar Ht.
  assert (Hjar' : store_cookie {| cw_text := TOKEN_KEY ++ EQUALS :: t;
                                  cw_expires := now (env h) + THIRTY_DAYS |}
                    (now (env h)) (cookies (env h))
                  = jar_put TOKEN_KEY t (cookies (env h))).
  { apply store_writable; [apply plain_writable; exact Ht|].
    unfold THIRTY_DAYS. lia. }
  unfold set_then_get, Unguarded.setToken, Unguarded.getToken,
    Cookie.write_token, Cookie.read_token, document_cookie_set,
    document_cookie_get, in_browser.
  cbv beta iota delta [bind gets modify lift ret with_env].
  cbn [env app platformId set_cookies cookies]. rewrite Hb.
  cbv beta iota. cbn [env app platformId set_cookies cookies]. rewrite Hb.
  cbv beta iota. rewrite Hjar'.
  pose proof (plain_readable t Ht) as Hr.
  rewrite decode_no_percent by (apply put_no_percent; assumption).
  cbn [fst]. f_equal.
  apply (find_token_put (cookies (env h)) t []); auto.
Qed.

Ltac ends_tac :=
  let c := fresh "c" in
  let r := fresh "r" in
  let E := fresh "E" in
  intros c r E; cbv in E;
  first [discriminate E | injection E as <- _; reflexivity].

Ltac writable_tac :=
  split; [repeat constructor; discriminate
         |split; [reflexivity
                 |split; [cbv; discriminate
                         |split; ends_tac]]].

Ltac plain_tac :=
  split; [writable_tac
         |split; [repeat constructor; discriminate | ends_tac]].

Lemma plain_sample : plain (lit "abc.DEF-123_x").
Proof. plain_tac. Qed.

Lemma tame_sample : tame (lit "lang", lit "en").
Proof.
  split.
  - repeat constructor; discriminate.
  - intros _. reflexivity.
Qed.

Example set_then_get_among_run :
  fst (set_then_get (lit "abc.DEF-123_x")
         (browser_host [(lit "lang", lit "en")]))
  = Ok (Some (lit "abc.DEF-123_x")).
Proof.
  apply set_then_get_among.
  - reflexivity.
  - constructor; [exact tame_sample | constructor].
  - exact plain_sample.
Qed.

(** *** The handshake, run *)

(** With the token [abc] in the jar, showing the patient frame composes
    its URL with the token and, once the timer fires, one [AUTH_TOKEN]
    message has been posted to the frame's origin. *)
Example show_then_send :
  let h := snd ((toggle Patient ;; fire_timer)
                  (browser_host [(TOKEN_KEY, lit "abc")])) in
  visible Patient h = true
  /\ patientIframeUrl (app h)
     = Some (TrustedResourceUrl
               (lit "https://fe-react-v1.practeaz.workers.dev/patient?token=abc"))
  /\ timers (env h) = []
  /\ posted (env h)
     = [{| post_frame := Patient;
           post_message := AUTH_TOKEN (lit "abc");
           post_target := FRAME_ORIGIN |}].
Proof. repeat split. Qed.

(** A login followed by a removal leaves no token. *)
Example login_then_remove :
  fst ((Guarded.setToken (lit "abc") ;; Guarded.hasToken) (browser_host []))
    = Ok true
  /\ fst ((Guarded.setToken (lit "abc") ;; Guarded.removeToken ;;
           Guarded.hasToken) (browser_host []))
     = Ok false
  /\ fst (Guarded.hasToken (browser_host [])) = Ok false.
Proof. repeat split. Qed.

(** Start-up installs one listener, which then receives what is
    delivered. *)
Example startup_then_close :
  let h0 := with_env (set_message_listeners 0) shown_host in
  let h1 := snd (ngOnInit h0) in
  message_listeners (env h1) = 1%nat
  /\ visible Staff (snd (deliver (close_request Staff) h1)) = false
  /\ visible Patient (snd (deliver (close_request Staff) h1)) = true.
Proof. repeat split. Qed.

(** * Further properties *)

(** *** What the store writes *)

Lemma token_pair t :
  parse_pair (usv (TOKEN_KEY ++ EQUALS :: t)) = Some (TOKEN_KEY, stored (usv t)).
Proof. reflexivity. Qed.

Lemma jar_put_put k v1 v2 jar :
  jar_put k v2 (jar_put k v1 jar) = jar_put k v2 jar.
Proof.
  induction jar as [|[n v] r IH]; simpl.
  - rewrite jseq_refl. reflexivity.
  - destruct (jseq n k) eqn:E; simpl; rewrite E; [reflexivity|].
    rewrite IH. reflexivity.
Qed.

Lemma jar_remove_put k v jar :
  jar_remove k (jar_put k v jar) = jar_remove k jar.
Proof.
  induction jar as [|[n w] r IH]; simpl.
  - rewrite jseq_refl. reflexivity.
  - destruct (jseq n k) eqn:E; simpl; rewrite E; [reflexivity|].
    rewrite IH. reflexivity.
Qed.

Lemma others_put v jar : others (jar_put TOKEN_KEY v jar) = others jar.
Proof.
  induction jar as [|[n w] r IH]; [reflexivity|].
  cbn [jar_put]. destruct (jseq n TOKEN_KEY) eqn:E.
  - unfold others. cbn [filter fst]. rewrite E. reflexivity.
  - unfold others in *. cbn [filter fst]. rewrite E. cbn [negb].
    rewrite IH. reflexivity.
Qed.

Lemma others_remove jar : others (jar_remove TOKEN_KEY jar) = others jar.
Proof.
  induction jar as [|[n w] r IH]; [reflexivity|].
  cbn [jar_remove]. destruct (jseq n TOKEN_KEY) eqn:E.
  - unfold others in *. cbn [filter fst]. rewrite E. exact IH.
  - unfold others in *. cbn [filter fst]. rewrite E. cbn [negb].
    rewrite IH. reflexivity.
Qed.

(** Whatever the token's text, the write is about the token's cookie
    alone. *)
Lemma store_token_others t clock expires jar :
  others (store_cookie {| cw_text := TOKEN_KEY ++ EQUALS :: t;
                          cw_expires := expires |} clock jar)
  = others jar.
Proof.
  unfold store_cookie. cbn [cw_text cw_expires]. cbv zeta.
  rewrite token_pair.
  destruct (refused _ _ _); [reflexivity|].
  destruct (last_max_age _) as [[|]|];
    [apply others_put | apply others_remove |].
  destruct (expires <=? clock); [apply others_remove | apply others_put].
Qed.

Lemma store_expire clock jar :
  store_cookie {| cw_text := TOKEN_KEY ++ lit "="; cw_expires := 0 |} clock jar
  = jar_remove TOKEN_KEY jar.
Proof.
  unfold store_cookie. cbn [cw_text cw_expires]. cbv zeta.
  change (parse_pair (usv (TOKEN_KEY ++ lit "=")))
    with (Some (TOKEN_KEY, @nil N)).
  cbv beta iota.
  change (refused (usv (TOKEN_KEY ++ lit "=")) TOKEN_KEY []) with false.
  change (last_max_age (attributes (usv (TOKEN_KEY ++ lit "="))))
    with (@None bool).
  cbv beta iota.
  replace (0 <=? clock) with true by (symmetry; apply N.leb_le; lia).
  reflexivity.
Qed.

Lemma write_token_unfold h t :
  platformId (env h) = Browser ->
  Cookie.write_token t h
  = (Ok tt,
     with_cookies
       (store_cookie {| cw_text := TOKEN_KEY ++ EQUALS :: t;
                        cw_expires := now (env h) + THIRTY_DAYS |}
                     (now (env h)) (cookies (env h))) h).
Proof.
  intros Hb.
  unfold Cookie.write_token, document_cookie_set, in_browser, with_cookies.
  cbv beta iota delta [bind gets modify with_env].
  rewrite Hb. reflexivity.
Qed.

Lemma write_token_run h t :
  platformId (env h) = Browser ->
  writable t ->
  Cookie.write_token t h
  = (Ok tt, with_cookies (jar_put TOKEN_KEY t (cookies (env h))) h).
Proof.
  intros Hb Ht. rewrite write_token_unfold by exact Hb.
  rewrite store_writable; [reflexivity | exact Ht | unfold THIRTY_DAYS; lia].
Qed.

Lemma expire_token_run h :
  platformId (env h) = Browser ->
  Cookie.expire_token h
  = (Ok tt, with_cookies (jar_remove TOKEN_KEY (cookies (env h))) h).
Proof.
  intros Hb.
  unfold Cookie.expire_token, document_cookie_set, in_browser, with_cookies.
  cbv beta iota delta [bind gets modify with_env].
  rewrite Hb. rewrite store_expire. reflexivity.
Qed.

Lemma setToken_unfold h t :
  platformId (env h) = Browser ->
  Guarded.setToken t h
  = (Ok tt,
     with_cookies
       (store_cookie {| cw_text := TOKEN_KEY ++ EQUALS :: t;
                        cw_expires := now (env h) + THIRTY_DAYS |}
                     (now (env h)) (cookies (env h))) h).
Proof.
  intros Hb. unfold Guarded.setToken, bind, gets. rewrite Hb.
  apply write_token_unfold. exact Hb.
Qed.

Lemma setToken_run h t :
  platformId (env h) = Browser ->
  writable t ->
  Guarded.setToken t h
  = (Ok tt, with_cookies (jar_put TOKEN_KEY t (cookies (env h))) h).
Proof.
  intros Hb Ht. unfold Guarded.setToken, bind, gets. rewrite Hb.
  apply write_token_run; assumption.
Qed.

Lemma removeToken_run h :
  platformId (env h) = Browser ->
  Guarded.removeToken h
  = (Ok tt, with_cookies (jar_remove TOKEN_KEY (cookies (env h))) h).
Proof.
  intros Hb. unfold Guarded.removeToken, bind, gets. rewrite Hb.
  apply expire_token_run. exact Hb.
Qed.

Lemma with_cookies_same h : with_cookies (cookies (env h)) h = h.
Proof. destruct h as [a e]. destruct e. reflexivity. Qed.

Lemma tame_token v : readable v -> tame (TOKEN_KEY, v).
Proof.
  intros Hv. split; [apply plain_entry; exact Hv|].
  cbn [fst]. rewrite jseq_refl. discriminate.
Qed.

Lemma tame_put jar v :
  Forall tame jar -> readable v -> Forall tame (jar_put TOKEN_KEY v jar).
Proof.
  intros Hjar Hv. induction Hjar as [|[n w] r He Hr IH]; simpl.
  - constructor; [apply tame_token; exact Hv | constructor].
  - destruct (jseq n TOKEN_KEY) eqn:E.
    + apply jseq_eq in E. subst n.
      constructor; [apply tame_token; exact Hv | exact Hr].
    + constructor; assumption.
Qed.

Lemma tame_remove jar :
  Forall tame jar ->
  Forall tame (jar_remove TOKEN_KEY jar)
  /\ Forall (fun e => jseq (fst e) TOKEN_KEY = false)
            (jar_remove TOKEN_KEY jar).
Proof.
  induction 1 as [|[n w] r He Hr [IH1 IH2]]; simpl.
  - split; constructor.
  - destruct (jseq n TOKEN_KEY) eqn:E; [split; assumption|].
    split; constructor; assumption.
Qed.

(** The token read from a jar, by what the jar holds. *)
Lemma token_of_put jar v :
  Forall tame jar -> readable v ->
  token_of Browser (jar_put TOKEN_KEY v jar) = Ok (Some v).
Proof.
  intros Hjar Hv. unfold token_of.
  rewrite decode_no_percent by (apply put_no_percent; assumption).
  cbn [rmap]. f_equal. f_equal.
  apply (find_token_put jar v []); auto.
Qed.

Lemma trim_white pre :
  Forall (fun c => is_white c = true) pre -> trim pre = [].
Proof.
  intros H. rewrite <- (app_nil_r pre). rewrite trim_leading by exact H.
  reflexivity.
Qed.

Lemma find_token_none jar pre :
  Forall tame jar ->
  Forall (fun e => jseq (fst e) TOKEN_KEY = false) jar ->
  Forall (fun c => is_white c = true) pre ->
  find_token (TOKEN_KEY ++ lit "=") (split SEMICOLON (pre ++ cookie_string jar))
  = None.
Proof.
  intros Hjar. revert pre.
  induction Hjar as [|e r [He Hn] Hr IH]; intros pre Hnot Hpre.
  - cbn [cookie_string]. rewrite app_nil_r.
    rewrite split_absent by (apply white_not_semicolon; exact Hpre).
    cbn [find_token]. rewrite trim_white by exact Hpre. reflexivity.
  - inversion Hnot as [|e' r' Hne Hnr]; subst.
    destruct r as [|e2 r2].
    + rewrite cookie_string_one. rewrite split_absent.
      * cbn [find_token]. rewrite trim_leading by exact Hpre.
        rewrite (Hn Hne). reflexivity.
      * apply Forall_app. split; [apply white_not_semicolon; exact Hpre|].
        apply no_semicolon. exact He.
    + rewrite cookie_string_cons by discriminate.
      change (lit "; " ++ cookie_string (e2 :: r2))
        with (SEMICOLON :: lit " " ++ cookie_string (e2 :: r2)).
      rewrite app_assoc, split_app_sep.
      * cbn [find_token]. rewrite trim_leading by exact Hpre.
        rewrite (Hn Hne). apply IH; [exact Hnr | repeat constructor].
      * apply Forall_app. split; [apply white_not_semicolon; exact Hpre|].
        apply no_semicolon. exact He.
Qed.

Lemma token_of_absent jar :
  Forall tame jar ->
  Forall (fun e => jseq (fst e) TOKEN_KEY = false) jar ->
  token_of Browser jar = Ok None.
Proof.
  intros Hjar Hnot. unfold token_of.
  rewrite decode_no_percent by (apply tame_no_percent; exact Hjar).
  cbn [rmap]. f_equal.
  apply (find_token_none jar []); auto.
Qed.

Lemma getToken_with_cookies h jar :
  platformId (env h) = Browser ->
  Guarded.getToken (with_cookies jar h) = (token_of Browser jar, with_cookies jar h).
Proof.
  intros Hb. rewrite getToken_run, getToken_fst.
  unfold with_cookies, with_env. cbn [env platformId cookies set_cookies].
  rewrite Hb. reflexivity.
Qed.

Lemma drop_while_suffix p (m : jsstring) :
  exists pre, m = pre ++ drop_while p m.
Proof.
  induction m as [|c r [pre IH]]; simpl.
  - exists []. reflexivity.
  - destruct (p c).
    + exists (c :: pre). simpl. f_equal. exact IH.
    + exists []. reflexivity.
Qed.

Lemma strip_prefix p (s : jsstring) :
  (forall c r, s = c :: r -> p c = false) ->
  exists tail, s = strip p s ++ tail.
Proof.
  intros Hh. unfold strip.
  assert (E1 : drop_while p s = s).
  { destruct s as [|c r]; [reflexivity|]. simpl.
    rewrite (Hh c r eq_refl). reflexivity. }
  rewrite E1.
  destruct (drop_while_suffix p (rev s)) as [pre E].
  exists (rev pre).
  rewrite <- rev_app_distr, <- E, rev_involutive. reflexivity.
Qed.

Lemma starts_with_app name a b :
  starts_with name a = true -> starts_with name (a ++ b) = true.
Proof.
  revert a. induction name as [|x name IH]; intros [|y a]; simpl; intros H;
    try reflexivity; try discriminate.
  apply andb_true_iff in H. destruct H as [Hx Hr].
  rewrite Hx. simpl. apply IH. exact Hr.
Qed.

Lemma starts_with_key k n v :
  Forall (fun c => c <> EQUALS) k ->
  Forall (fun c => c <> EQUALS) n ->
  starts_with (k ++ [EQUALS]) (n ++ EQUALS :: v) = true ->
  n = k.
Proof.
  intros Hk. revert n. induction Hk as [|x k Hx _ IH]; intros n Hn H.
  - destruct n as [|y n]; [reflexivity|].
    cbn [starts_with List.app] in H.
    apply andb_true_iff in H. destruct H as [H _].
    apply N.eqb_eq in H. inversion Hn; subst. congruence.
  - destruct n as [|y n]; cbn [starts_with List.app] in H;
      apply andb_true_iff in H; destruct H as [Hxy H];
      apply N.eqb_eq in Hxy.
    + congruence.
    + inversion Hn; subst. f_equal. apply IH; assumption.
Qed.

Lemma foreign_entry e : foreign e -> entry e = fst e ++ EQUALS :: snd e.
Proof.
  intros [Hne _]. unfold entry. destruct (fst e); [contradiction | reflexivity].
Qed.

Lemma foreign_no_match e :
  foreign e ->
  starts_with (TOKEN_KEY ++ lit "=") (trim (entry e)) = false.
Proof.
  intros Hf. pose proof (foreign_entry e Hf) as Ee.
  destruct Hf as [Hne [Hnk [Heq Hhd]]].
  destruct (starts_with (TOKEN_KEY ++ lit "=") (trim (entry e))) eqn:E;
    [|reflexivity].
  exfalso.
  assert (Hfirst : forall c r, entry e = c :: r -> is_white c = false).
  { intros c r Ec. rewrite Ee in Ec. destruct (fst e) as [|x n] eqn:En.
    - contradiction.
    - simpl in Ec. injection Ec as <- _. exact (Hhd x n eq_refl). }
  destruct (strip_prefix is_white (entry e) Hfirst) as [tail Ht].
  apply (starts_with_app _ _ tail) in E. fold (trim (entry e)) in Ht.
  rewrite <- Ht in E. rewrite Ee in E.
  apply starts_with_key in E.
  - rewrite E, jseq_refl in Hnk. discriminate.
  - repeat constructor; discriminate.
  - exact Heq.
Qed.

(** Foreign cookies without [';'] and ['%'] are tame. *)
Lemma foreign_tame e :
  foreign e ->
  Forall (fun c => c <> SEMICOLON /\ c <> PERCENT) (entry e) ->
  tame e.
Proof.
  intros Hf Hall. split; [exact Hall|].
  intros _. apply foreign_no_match. exact Hf.
Qed.

Ltac tame_tac :=
  repeat (constructor;
          [split; [repeat constructor; discriminate
                  |intros H; first [reflexivity | discriminate H]]|]);
  try constructor.

Lemma setToken_storable h t :
  platformId (env h) = Browser ->
  storable t ->
  Guarded.setToken t h
  = (Ok tt,
     with_cookies (jar_put TOKEN_KEY (strip is_wsp t) (cookies (env h))) h).
Proof.
  intros Hb Ht. rewrite setToken_unfold by exact Hb.
  rewrite store_storable; [reflexivity | exact Ht | unfold THIRTY_DAYS; lia].
Qed.

(** X1. The spaces around a token are lost. In a browser whose other
    cookies are tame, for a storable token - no [';'], no control
    character, paired surrogates, within the size limit - [getToken()]
    after [setToken(t)] gives [t] without its surrounding spaces, provided
    that text has no ['%'] and does not end with white space;
    [hasToken()] then tells whether that text is empty. *)
Theorem setToken_then_getToken (h : Host) (t : jsstring) :
  platformId (env h) = Browser ->
  Forall tame (cookies (env h)) ->
  storable t ->
  readable (strip is_wsp t) ->
  fst ((Guarded.setToken t ;; Guarded.getToken) h)
  = Ok (Some (strip is_wsp t))
  /\ fst ((Guarded.setToken t ;; Guarded.hasToken) h)
     = Ok (present (Some (strip is_wsp t))).
Proof.
  intros Hb Hjar Ht Hv. unfold bind.
  rewrite setToken_storable by assumption.
  rewrite hasToken_run, getToken_with_cookies by exact Hb. cbn [fst].
  rewrite token_of_put by assumption. split; reflexivity.
Qed.

Ltac storable_tac :=
  split; [repeat constructor; discriminate
         |split; [reflexivity | cbv; discriminate]].

Ltac readable_tac :=
  split; [repeat constructor; discriminate | ends_tac].

Lemma setToken_then_getToken_witness :
  platformId (env page) = Browser
  /\ Forall tame (cookies (env page))
  /\ storable (lit "  abc def ")
  /\ readable (strip is_wsp (lit "  abc def "))
  /\ fst ((Guarded.setToken (lit "  abc def ") ;; Guarded.getToken) page)
     = Ok (Some (lit "abc def"))
  /\ storable (lit " ")
  /\ readable (strip is_wsp (lit " "))
  /\ fst ((Guarded.setToken (lit " ") ;; Guarded.hasToken) page) = Ok false.
Proof.
  assert (Hj : Forall tame (cookies (env page))) by tame_tac.
  assert (Hs : storable (lit "  abc def ")) by storable_tac.
  assert (Hr : readable (strip is_wsp (lit "  abc def "))) by readable_tac.
  assert (Hs' : storable (lit " ")) by storable_tac.
  assert (Hr' : readable (strip is_wsp (lit " "))) by readable_tac.
  split; [reflexivity|]. split; [exact Hj|].
  split; [exact Hs|]. split; [exact Hr|].
  split; [exact (proj1 (setToken_then_getToken page (lit "  abc def ")
                          eq_refl Hj Hs Hr))|].
  split; [exact Hs'|]. split; [exact Hr'|].
  exact (proj2 (setToken_then_getToken page (lit " ") eq_refl Hj Hs' Hr')).
Defined.

(** X2. In a browser whose other cookies are tame, a plain token - one the
    browser stores as written (no [';'], no control character, paired
    surrogates, within the size limit, no space or tab at either end) that
    has no ['%'] and does not end with white space - is read back exactly,
    and [hasToken()] is true unless the token is empty. *)
Theorem setToken_getToken_round_trip (h : Host) (t : jsstring) :
  platformId (env h) = Browser ->
  Forall tame (cookies (env h)) ->
  plain t ->
  fst ((Guarded.setToken t ;; Guarded.getToken) h) = Ok (Some t)
  /\ fst ((Guarded.setToken t ;; Guarded.hasToken) h) = Ok (present (Some t)).
Proof.
  intros Hb Hjar Ht. unfold bind.
  rewrite setToken_run by (try apply plain_writable; assumption).
  rewrite hasToken_run, getToken_with_cookies by exact Hb. cbn [fst].
  rewrite token_of_put by (try apply plain_readable; assumption).
  split; reflexivity.
Qed.

Lemma setToken_getToken_round_trip_witness :
  platformId (env page) = Browser
  /\ Forall tame (cookies (env page))
  /\ plain (lit "abc.DEF-123_x")
  /\ fst ((Guarded.setToken (lit "abc.DEF-123_x") ;; Guarded.getToken) page)
     = Ok (Some (lit "abc.DEF-123_x"))
  /\ fst ((Guarded.setToken (lit "abc.DEF-123_x") ;; Guarded.hasToken) page)
     = Ok true.
Proof.
  assert (Hj : Forall tame (cookies (env page))) by tame_tac.
  assert (Hp : plain (lit "abc.DEF-123_x")) by plain_tac.
  split; [reflexivity|]. split; [exact Hj|]. split; [exact Hp|].
  exact (setToken_getToken_round_trip page (lit "abc.DEF-123_x") eq_refl Hj Hp).
Defined.

Lemma setToken_server h t :
  platformId (env h) = Server -> Guarded.setToken t h = (Ok tt, h).
Proof. intros Hp. unfold Guarded.setToken, bind, gets. rewrite Hp. reflexivity. Qed.

Lemma removeToken_server h :
  platformId (env h) = Server -> Guarded.removeToken h = (Ok tt, h).
Proof.
  intros Hp. unfold Guarded.removeToken, bind, gets. rewrite Hp. reflexivity.
Qed.

Lemma with_cookies_twice j1 j2 h :
  with_cookies j2 (with_cookies j1 h) = with_cookies j2 h.
Proof. reflexivity. Qed.

Lemma setToken_on_cookies h jar t :
  platformId (env h) = Browser ->
  writable t ->
  Guarded.setToken t (with_cookies jar h)
  = (Ok tt, with_cookies (jar_put TOKEN_KEY t jar) h).
Proof. intros Hb Ht. rewrite setToken_run by assumption. reflexivity. Qed.

Lemma removeToken_on_cookies h jar :
  platformId (env h) = Browser ->
  Guarded.removeToken (with_cookies jar h)
  = (Ok tt, with_cookies (jar_remove TOKEN_KEY jar) h).
Proof. intros Hb. rewrite removeToken_run by exact Hb. reflexivity. Qed.

(** X3. A later [setToken] replaces an earlier one altogether: for two
    writable tokens - tokens the browser stores as written - writing [a]
    and then [b] leaves the page as writing [b] alone does, on any
    platform. *)
Theorem setToken_last_wins (h : Host) (a b : jsstring) :
  writable a -> writable b ->
  (Guarded.setToken a ;; Guarded.setToken b) h = Guarded.setToken b h.
Proof.
  intros Ha Hw. destruct (platformId (env h)) eqn:Hb.
  - unfold bind. rewrite (setToken_run h a) by assumption.
    rewrite setToken_on_cookies by assumption.
    rewrite jar_put_put. symmetry. apply setToken_run; assumption.
  - unfold bind. rewrite (setToken_server h a) by exact Hb. reflexivity.
Qed.

Lemma setToken_last_wins_witness :
  writable (lit "first") /\ writable (lit "second=2")
  /\ cookies (env (snd ((Guarded.setToken (lit "first") ;;
                         Guarded.setToken (lit "second=2")) page)))
     = [(lit "lang", lit "en"); (TOKEN_KEY, lit "second=2")].
Proof.
  assert (Ha : writable (lit "first")) by writable_tac.
  assert (Hw : writable (lit "second=2")) by writable_tac.
  split; [exact Ha|]. split; [exact Hw|].
  rewrite (setToken_last_wins page (lit "first") (lit "second=2") Ha Hw).
  reflexivity.
Defined.

(** X4. [removeToken] undoes the [setToken] of a writable token: writing
    the token and removing it leaves the page as removing alone does, on
    any platform. *)
Theorem removeToken_after_setToken (h : Host) (t : jsstring) :
  writable t ->
  (Guarded.setToken t ;; Guarded.removeToken) h = Guarded.removeToken h.
Proof.
  intros Ht. destruct (platformId (env h)) eqn:Hb.
  - unfold bind. rewrite (setToken_run h t) by assumption.
    rewrite removeToken_on_cookies by exact Hb.
    rewrite jar_remove_put. symmetry. apply removeToken_run. exact Hb.
  - unfold bind. rewrite (setToken_server h t) by exact Hb. reflexivity.
Qed.

Lemma removeToken_after_setToken_witness :
  writable (lit "100%")
  /\ (Guarded.setToken (lit "100%") ;; Guarded.removeToken) page = (Ok tt, page).
Proof.
  assert (Ht : writable (lit "100%")) by writable_tac.
  split; [exact Ht|].
  rewrite (removeToken_after_setToken page (lit "100%") Ht). reflexivity.
Defined.

(** X5. Whatever the token, [setToken] and [removeToken] return normally
    and change nothing but the cookie jar, and in the jar nothing but the
    token's own cookie: the other cookies are the same, in the same
    order. *)
Theorem store_keeps_other_cookies (h : Host) (t : jsstring) :
  (exists jar,
     Guarded.setToken t h = (Ok tt, with_cookies jar h)
     /\ others jar = others (cookies (env h)))
  /\ (exists jar,
        Guarded.removeToken h = (Ok tt, with_cookies jar h)
        /\ others jar = others (cookies (env h))).
Proof.
  destruct (platformId (env h)) eqn:Hb.
  - split; eexists; split.
    + apply setToken_unfold. exact Hb.
    + apply store_token_others.
    + apply removeToken_run. exact Hb.
    + apply others_remove.
  - split; exists (cookies (env h)); rewrite with_cookies_same.
    + split; [apply setToken_server; exact Hb | reflexivity].
    + split; [apply removeToken_server; exact Hb | reflexivity].
Qed.

(** X6. In a browser whose cookies are tame, after [removeToken()] there
    is no token: [getToken()] gives [null] and [hasToken()] is false. *)
Theorem removeToken_then_absent (h : Host) :
  platformId (env h) = Browser ->
  Forall tame (cookies (env h)) ->
  fst ((Guarded.removeToken ;; Guarded.getToken) h) = Ok None
  /\ fst ((Guarded.removeToken ;; Guarded.hasToken) h) = Ok false.
Proof.
  intros Hb Hjar. unfold bind. rewrite removeToken_run by exact Hb.
  rewrite hasToken_run, getToken_with_cookies by exact Hb. cbn [fst].
  destruct (tame_remove _ Hjar) as [H1 H2].
  rewrite token_of_absent by assumption. split; reflexivity.
Qed.

Lemma removeToken_then_absent_witness :
  let h := browser_host [(lit "lang", lit "en"); (TOKEN_KEY, lit "abc")] in
  platformId (env h) = Browser
  /\ Forall tame (cookies (env h))
  /\ fst (Guarded.hasToken h) = Ok true
  /\ fst ((Guarded.removeToken ;; Guarded.hasToken) h) = Ok false.
Proof.
  cbv zeta.
  assert (Hj : Forall tame
                 (cookies (env (browser_host [(lit "lang", lit "en");
                                              (TOKEN_KEY, lit "abc")]))))
    by tame_tac.
  split; [reflexivity|]. split; [exact Hj|]. split; [reflexivity|].
  exact (proj2 (removeToken_then_absent
                  (browser_host [(lit "lang", lit "en"); (TOKEN_KEY, lit "abc")])
                  eq_refl Hj)).
Defined.

(** X7. The token is found by its exact name. In a browser where every
    cookie has a name, another one than [authToken] (with no ['='] in the
    name and no white space in front, as a browser keeps names), and no
    [';'] or ['%'] in its text, [getToken()] gives [null] and [hasToken()]
    is false, changing nothing: so before any [setToken()], also next to a
    cookie named [authToken2] or one whose value holds [authToken=]. *)
Theorem getToken_without_token (h : Host) :
  platformId (env h) = Browser ->
  Forall (fun e =>
            foreign e
            /\ Forall (fun c => c <> SEMICOLON /\ c <> PERCENT) (entry e))
         (cookies (env h)) ->
  Guarded.getToken h = (Ok None, h) /\ Guarded.hasToken h = (Ok false, h).
Proof.
  intros Hb Hjar.
  assert (Hg : fst (Guarded.getToken h) = Ok None).
  { rewrite getToken_fst, Hb. apply token_of_absent.
    - eapply Forall_impl; [|exact Hjar]. intros e [Hf Hc].
      apply foreign_tame; assumption.
    - eapply Forall_impl; [|exact Hjar]. intros e [[_ [Hn _]] _]. exact Hn. }
  split.
  - rewrite getToken_run, Hg. reflexivity.
  - rewrite hasToken_run, Hg. reflexivity.
Qed.

Ltac foreign_tac :=
  repeat (constructor;
          [split;
           [split; [discriminate
                   |split; [reflexivity
                           |split; [repeat constructor; discriminate
                                   |ends_tac]]]
           |repeat constructor; discriminate]|]);
  try constructor.

Lemma getToken_without_token_witness :
  platformId (env lookalikes) = Browser
  /\ Forall (fun e =>
               foreign e
               /\ Forall (fun c => c <> SEMICOLON /\ c <> PERCENT) (entry e))
            (cookies (env lookalikes))
  /\ Guarded.getToken lookalikes = (Ok None, lookalikes).
Proof.
  assert (Hj : Forall (fun e =>
               foreign e
               /\ Forall (fun c => c <> SEMICOLON /\ c <> PERCENT) (entry e))
            (cookies (env lookalikes))) by foreign_tac.
  split; [reflexivity|]. split; [exact Hj|].
  exact (proj1 (getToken_without_token lookalikes eq_refl Hj)).
Defined.

Lemma guarded_outside_browser_witness :
  platformId (env server_host) = Server
  /\ Guarded.setToken (lit "abc") server_host = (Ok tt, server_host)
  /\ Guarded.getToken server_host = (Ok None, server_host)
  /\ Guarded.removeToken server_host = (Ok tt, server_host)
  /\ Guarded.hasToken server_host = (Ok false, server_host).
Proof.
  destruct (guarded_outside_browser server_host eq_refl) as [Hs [Hg [Hr Hh]]].
  split; [reflexivity|]. split; [exact (Hs (lit "abc"))|].
  split; [exact Hg|]. split; [exact Hr | exact Hh].
Defined.

(** *** The message sender *)

Lemma sendTokenToIframe_run h type t :
  platformId (env h) = Browser ->
  fst (Guarded.getToken h) = Ok (Some t) ->
  t <> [] ->
  sendTokenToIframe type h
  = (Ok tt, if window_of type h then posting type t h else h).
Proof.
  intros Hb Ht Hne. destruct t as [|c r]; [contradiction|].
  unfold sendTokenToIframe, bind. rewrite getToken_run, Ht.
  unfold frame_window, in_browser, gets. rewrite Hb.
  unfold window_of. destruct type;
    [destruct (patient_window (env h)) | destruct (staff_window (env h))];
    reflexivity.
Qed.

Lemma sendTokenToIframe_idle h type :
  fst (Guarded.getToken h) = Ok None ->
  sendTokenToIframe type h = (Ok tt, h).
Proof.
  intros Ht. unfold sendTokenToIframe, bind. rewrite getToken_run, Ht.
  reflexivity.
Qed.

(** X9. With a token stored, [sendTokenToIframe] posts one [AUTH_TOKEN]
    message carrying the token to the frame's origin when the frame's
    element is in the document, and does nothing when it is not. *)
Theorem sendTokenToIframe_posts (h : Host) (type : frame) (t : jsstring) :
  platformId (env h) = Browser ->
  fst (Guarded.getToken h) = Ok (Some t) ->
  t <> [] ->
  (window_of type h = true ->
     sendTokenToIframe type h = (Ok tt, posting type t h))
  /\ (window_of type h = false -> sendTokenToIframe type h = (Ok tt, h)).
Proof.
  intros Hb Ht Hne.
  split; intros Hw; rewrite (sendTokenToIframe_run h type t Hb Ht Hne), Hw;
    reflexivity.
Qed.

Lemma sendTokenToIframe_posts_witness :
  let h := browser_host [(TOKEN_KEY, lit "abc")] in
  platformId (env h) = Browser
  /\ fst (Guarded.getToken h) = Ok (Some (lit "abc"))
  /\ lit "abc" <> []
  /\ window_of Staff h = true
  /\ posted (env (snd (sendTokenToIframe Staff h)))
     = [{| post_frame := Staff;
           post_message := AUTH_TOKEN (lit "abc");
           post_target := FRAME_ORIGIN |}].
Proof.
  cbv zeta.
  assert (Hne : lit "abc" <> []) by discriminate.
  repeat (split; [first [reflexivity | exact Hne]|]).
  rewrite (proj1 (sendTokenToIframe_posts
                    (browser_host [(TOKEN_KEY, lit "abc")]) Staff (lit "abc")
                    eq_refl eq_refl Hne) eq_refl).
  reflexivity.
Defined.

(** X10. With no token to read, [sendTokenToIframe] does nothing, and during
    server rendering it never names [document]. *)
Theorem sendTokenToIframe_without_token (h : Host) (type : frame) :
  fst (Guarded.getToken h) = Ok None \/ platformId (env h) = Server ->
  sendTokenToIframe type h = (Ok tt, h).
Proof.
  intros H.
  assert (Ht : fst (Guarded.getToken h) = Ok None).
  { destruct H as [H | H]; [exact H|]. rewrite getToken_fst, H. reflexivity. }
  apply sendTokenToIframe_idle. exact Ht.
Qed.

Lemma sendTokenToIframe_without_token_witness :
  platformId (env server_host) = Server
  /\ sendTokenToIframe Patient server_host = (Ok tt, server_host)
  /\ fst (Guarded.getToken page) = Ok None
  /\ sendTokenToIframe Patient page = (Ok tt, page).
Proof.
  split; [reflexivity|].
  split; [exact (sendTokenToIframe_without_token server_host Patient
                   (or_intror eq_refl))|].
  split; [reflexivity|].
  exact (sendTokenToIframe_without_token page Patient (or_introl eq_refl)).
Defined.

(** *** What the URL composer leaves alone *)

Lemma same_but_urls_refl h : same_but_urls h h.
Proof. repeat split. Qed.

Lemma updateIframeUrls_keeps h :
  same_but_urls h (snd (updateIframeUrls h)).
Proof.
  unfold updateIframeUrls, bind. rewrite getToken_run.
  destruct (fst (Guarded.getToken h)) as [t|e]; [|apply same_but_urls_refl].
  cbv beta iota delta [gets lift modify bind].
  destruct (compose (patientUrl (app h)) t) as [p|e];
    [|apply same_but_urls_refl].
  cbn [app staffUrl with_app set_patientIframeUrl].
  destruct (compose (staffUrl (app h)) t) as [s|e]; repeat split.
Qed.

(** *** The visibility controller, whatever happens *)

Lemma visible_flipped type h :
  visible type (flipped type h) = negb (visible type h)
  /\ visible (other type) (flipped type h) = visible (other type) h.
Proof. destruct type; split; reflexivity. Qed.

(** X13. Whether it returns or raises, a toggle flips the flag of its own
    frame and leaves the other frame's flag, the input field, the cookie
    jar, the posted messages and the alerts as they were. *)
Theorem toggle_frame (h : Host) (type : frame) :
  let h' := snd (toggle type h) in
  visible type h' = negb (visible type h)
  /\ visible (other type) h' = visible (other type) h
  /\ token (app h') = token (app h)
  /\ cookies (env h') = cookies (env h)
  /\ posted (env h') = posted (env h)
  /\ alerts (env h') = alerts (env h).
Proof.
  cbv zeta. rewrite toggle_unfold.
  destruct (visible_flipped type h) as [Hf Ho].
  destruct (visible type h) eqn:Hv; cbn [negb] in *.
  - cbn [snd]. repeat split;
      first [assumption | destruct type; reflexivity].
  - unfold bind.
    pose proof (updateIframeUrls_keeps (flipped type h)) as Hk.
    destruct Hk as [He [Ht [Hp [Hs _]]]].
    destruct (updateIframeUrls (flipped type h)) as [[[]|e] h1];
      cbn [snd] in *;
      cbn [setTimeout modify snd with_env app env cookies posted alerts
           set_timers visible];
      rewrite ?He;
      (split; [transitivity (visible type (flipped type h));
                 [destruct type; assumption | exact Hf]|]);
      (split; [transitivity (visible (other type) (flipped type h));
                 [destruct type; assumption | exact Ho]|]);
      (split; [rewrite Ht; destruct type; reflexivity|]);
      repeat split; destruct type; reflexivity.
Qed.

Lemma bind_run {A B : Type} (m : M A) (k : A -> M B) h a h1 :
  m h = (Ok a, h1) -> bind m k h = k a h1.
Proof. intros H. unfold bind. rewrite H. reflexivity. Qed.

Lemma bind_throw {A B : Type} (m : M A) (k : A -> M B) h e h1 :
  m h = (Throw e, h1) -> bind m k h = (Throw e, h1).
Proof. intros H. unfold bind. rewrite H. reflexivity. Qed.

Lemma toggle_show_run type h t p s :
  visible type h = false ->
  fst (Guarded.getToken h) = Ok t ->
  compose (patientUrl (app h)) t = Ok p ->
  compose (staffUrl (app h)) t = Ok s ->
  toggle type h = (Ok tt, scheduled type (with_urls p s (flipped type h))).
Proof.
  intros Hv Ht Hp Hs. rewrite toggle_unfold, Hv. cbn [negb].
  rewrite (bind_run _ _ _ tt (with_urls p s (flipped type h))).
  - reflexivity.
  - apply (updateIframeUrls_ok (flipped type h) t p s).
    + rewrite getToken_flipped. exact Ht.
    + destruct type; exact Hp.
    + destruct type; exact Hs.
Qed.

Lemma toggle_hide_run type h :
  visible type h = true -> toggle type h = (Ok tt, flipped type h).
Proof. intros H. rewrite toggle_unfold, H. reflexivity. Qed.

Lemma flipped_twice_visible type h :
  visible type (flipped type (flipped type h)) = visible type h.
Proof. destruct type; apply negb_involutive. Qed.

(** X14. With a readable token, toggling a frame twice brings its flag back
    to where it was, composes both URLs from the token and leaves exactly
    one more send pending. *)
Theorem toggle_twice (h : Host) (type : frame) (t : option jsstring)
  (p s : jsstring) :
  fst (Guarded.getToken h) = Ok t ->
  compose (patientUrl (app h)) t = Ok p ->
  compose (staffUrl (app h)) t = Ok s ->
  exists h2,
    (toggle type ;; toggle type) h = (Ok tt, h2)
    /\ visible type h2 = visible type h
    /\ patientIframeUrl (app h2)
       = Some (bypassSecurityTrustResourceUrl p)
    /\ staffIframeUrl (app h2)
       = Some (bypassSecurityTrustResourceUrl s)
    /\ timers (env h2) = timers (env h) ++ [(SETTLE_DELAY, SendToken type)].
Proof.
  intros Ht Hp Hs.
  destruct (visible_flipped type h) as [Hf _].
  destruct (visible type h) eqn:Hv; cbn [negb] in Hf.
  - (* shown: hide, then show again *)
    exists (scheduled type (with_urls p s (flipped type (flipped type h)))).
    split.
    + rewrite (bind_run _ _ _ tt (flipped type h))
        by (apply toggle_hide_run; exact Hv).
      apply (toggle_show_run type (flipped type h) t p s).
      * exact Hf.
      * rewrite getToken_flipped. exact Ht.
      * destruct type; exact Hp.
      * destruct type; exact Hs.
    + split; [|repeat split; destruct type; reflexivity].
      transitivity (visible type (flipped type (flipped type h)));
        [destruct type; reflexivity|].
      rewrite flipped_twice_visible. exact Hv.
  - (* hidden: show, then hide again *)
    exists (flipped type (scheduled type (with_urls p s (flipped type h)))).
    split.
    + rewrite (bind_run _ _ _ tt
                 (scheduled type (with_urls p s (flipped type h))))
        by (apply (toggle_show_run type h t p s); assumption).
      apply toggle_hide_run. rewrite <- Hf. destruct type; reflexivity.
    + split; [|repeat split; destruct type; reflexivity].
      transitivity (visible type (flipped type (flipped type h)));
        [destruct type; reflexivity|].
      rewrite flipped_twice_visible. exact Hv.
Qed.

Lemma toggle_twice_witness :
  let h := browser_host [(TOKEN_KEY, lit "abc")] in
  fst (Guarded.getToken h) = Ok (Some (lit "abc"))
  /\ visible Patient (snd ((toggle Patient ;; toggle Patient) h)) = false
  /\ timers (env (snd ((toggle Patient ;; toggle Patient) h)))
     = [(SETTLE_DELAY, SendToken Patient)].
Proof.
  cbv zeta. split; [reflexivity|].
  destruct (toggle_twice (browser_host [(TOKEN_KEY, lit "abc")]) Patient
              (Some (lit "abc")) _ _ eq_refl eq_refl eq_refl)
    as [h2 [E [Hv [_ [_ Ht]]]]].
  rewrite E. cbn [snd]. split; [exact Hv | exact Ht].
Defined.

Lemma toggle_shows_witness :
  let h := browser_host [(TOKEN_KEY, lit "abc")] in
  visible Staff h = false
  /\ fst (Guarded.getToken h) = Ok (Some (lit "abc"))
  /\ toggle Staff h
     = (Ok tt,
        scheduled Staff
          (with_urls
             (lit "https://fe-react-v1.practeaz.workers.dev/patient?token=abc")
             (lit "https://fe-react-v1.practeaz.workers.dev/staff?token=abc")
             (flipped Staff h))).
Proof.
  cbv zeta. split; [reflexivity|]. split; [reflexivity|].
  apply (toggle_shows Staff (browser_host [(TOKEN_KEY, lit "abc")])
           (Some (lit "abc"))); reflexivity.
Defined.

Lemma toggle_throws_witness :
  let h := browser_host [(lit "pref", lit "50%")] in
  visible Patient h = false
  /\ fst (Guarded.getToken h) = Throw URIError
  /\ toggle Patient h = (Throw URIError, flipped Patient h).
Proof.
  cbv zeta. split; [reflexivity|]. split; [reflexivity|].
  exact (toggle_throws Patient (browser_host [(lit "pref", lit "50%")])
           URIError eq_refl eq_refl).
Defined.

(** *** Login, whatever happens *)

Lemma logged_in_cookies t h :
  writable t ->
  logged_in t h
  = with_env (fun e => set_alerts (alerts e ++ [lit "Token set successfully!"]) e)
      (with_cookies (jar_put TOKEN_KEY t (cookies (env h))) h).
Proof.
  intros Ht. unfold logged_in, with_cookies, with_env. f_equal.
  cbn [env set_cookies alerts].
  rewrite store_writable; [reflexivity | exact Ht | unfold THIRTY_DAYS; lia].
Qed.

Lemma onLogin_server h :
  platformId (env h) = Server ->
  token (app h) <> [] ->
  onLogin h = (Throw ReferenceError, h).
Proof.
  intros Hp Hne. unfold onLogin. unfold bind at 1. unfold gets at 1.
  destruct (token (app h)) as [|c r]; [contradiction|].
  rewrite (bind_run _ _ _ tt h) by (apply setToken_server; exact Hp).
  apply bind_throw. unfold alert, in_browser. rewrite Hp. reflexivity.
Qed.

(** X17. Whether it returns or raises, [onLogin] shows and hides nothing,
    schedules nothing and posts nothing: both visibility flags, the pending
    timers and the posted messages are as they were. *)
Theorem onLogin_frame (h : Host) :
  let h' := snd (onLogin h) in
  showPatientIframe (app h') = showPatientIframe (app h)
  /\ showStaffIframe (app h') = showStaffIframe (app h)
  /\ timers (env h') = timers (env h)
  /\ posted (env h') = posted (env h).
Proof.
  cbv zeta.
  destruct (token (app h)) as [|c r] eqn:Et.
  - rewrite onLogin_empty by exact Et. repeat split.
  - assert (Hne : token (app h) <> []) by (rewrite Et; discriminate).
    destruct (platformId (env h)) eqn:Hb.
    + rewrite onLogin_unfold by assumption. unfold bind.
      pose proof (updateIframeUrls_keeps (logged_in (token (app h)) h)) as Hk.
      destruct Hk as [He [_ [Hp [Hs _]]]].
      destruct (updateIframeUrls (logged_in (token (app h)) h))
        as [[[]|e] h1]; cbn [snd modify with_app app env] in *;
        cbn [set_token showPatientIframe showStaffIframe];
        rewrite He, Hp, Hs; repeat split.
    + rewrite onLogin_server by assumption. repeat split.
Qed.

(** X15. Login with a plain token (one the browser stores as written,
    without ['%'] and without white space at its end), next to tame
    cookies: the token is the one [getToken()] gives afterwards, both
    frame URLs end in [?token=] and its percent-encoding, the field is
    empty, and one alert has been shown. *)
Theorem onLogin_plain (h : Host) (t : jsstring) :
  platformId (env h) = Browser ->
  Forall tame (cookies (env h)) ->
  token (app h) = t ->
  t <> [] -> plain t ->
  exists e h',
    encodeURIComponent t = Ok e
    /\ onLogin h = (Ok tt, h')
    /\ fst (Guarded.getToken h') = Ok (Some t)
    /\ patientIframeUrl (app h')
       = Some (TrustedResourceUrl (patientUrl (app h) ++ lit "?token=" ++ e))
    /\ staffIframeUrl (app h')
       = Some (TrustedResourceUrl (staffUrl (app h) ++ lit "?token=" ++ e))
    /\ token (app h') = []
    /\ alerts (env h') = alerts (env h) ++ [lit "Token set successfully!"].
Proof.
  intros Hb Hjar Ht Hne Hp.
  pose proof (plain_writable t Hp) as Hw.
  assert (Hwf : well_formed t = true) by apply Hw.
  assert (Hg : fst (Guarded.getToken (logged_in t h)) = Ok (Some t)).
  { rewrite getToken_fst, logged_in_cookies by exact Hw.
    cbn [with_env with_cookies env platformId cookies set_alerts set_cookies].
    rewrite Hb. apply token_of_put; [|apply plain_readable]; assumption. }
  destruct (compose_present (patientUrl (app h)) t Hne Hwf) as [e [He [_ Hcp]]].
  destruct (compose_present (staffUrl (app h)) t Hne Hwf) as [e' [He' [_ Hcs]]].
  assert (e' = e) by congruence. subst e'.
  exists e. eexists. split; [exact He|]. split.
  - rewrite onLogin_unfold by (try rewrite Ht; assumption).
    rewrite Ht.
    rewrite (bind_run _ _ _ tt _
               (updateIframeUrls_ok (logged_in t h) (Some t) _ _ Hg Hcp Hcs)).
    reflexivity.
  - split; [|repeat split].
    rewrite <- Hg. apply getToken_env; reflexivity.
Qed.

Lemma onLogin_plain_witness :
  let h := typing (lit "abc") page in
  platformId (env h) = Browser
  /\ Forall tame (cookies (env h))
  /\ token (app h) = lit "abc"
  /\ plain (lit "abc")
  /\ exists h',
       onLogin h = (Ok tt, h')
       /\ fst (Guarded.getToken h') = Ok (Some (lit "abc"))
       /\ token (app h') = [].
Proof.
  cbv zeta.
  assert (Hj : Forall tame (cookies (env (typing (lit "abc") page))))
    by tame_tac.
  assert (Hp : plain (lit "abc")) by plain_tac.
  assert (Hne : lit "abc" <> []) by discriminate.
  repeat (split; [first [reflexivity | assumption]|]).
  destruct (onLogin_plain (typing (lit "abc") page) (lit "abc")
              eq_refl Hj eq_refl Hne Hp)
    as [e [h' [_ [E [Hg [_ [_ [Hf _]]]]]]]].
  exists h'. repeat split; assumption.
Defined.

(** X16. Login with a writable token - one the browser stores as written -
    that makes the jar unreadable, as a token with a ['%'] that starts no
    escape does: the token is stored, the alert is shown, and then the
    error of [getToken()] escapes [onLogin]; the component is as it was,
    so the field keeps the token and no frame URL is composed. *)
Theorem onLogin_unreadable (h : Host) (t : jsstring) (e : js_error) :
  platformId (env h) = Browser ->
  token (app h) = t ->
  t <> [] -> writable t ->
  token_of Browser (jar_put TOKEN_KEY t (cookies (env h))) = Throw e ->
  exists h',
    onLogin h = (Throw e, h')
    /\ cookies (env h') = jar_put TOKEN_KEY t (cookies (env h))
    /\ alerts (env h') = alerts (env h) ++ [lit "Token set successfully!"]
    /\ app h' = app h.
Proof.
  intros Hb Ht Hne Hw Hread.
  exists (logged_in t h).
  assert (Hne' : token (app h) <> []) by (rewrite Ht; exact Hne).
  split.
  - rewrite <- Ht. apply onLogin_throws; [exact Hb | exact Hne' |].
    rewrite Ht, getToken_fst, logged_in_cookies by exact Hw.
    cbn [with_env with_cookies env platformId cookies set_alerts set_cookies].
    rewrite Hb. exact Hread.
  - rewrite logged_in_cookies by exact Hw. repeat split.
Qed.

Lemma onLogin_unreadable_witness :
  let h := typing (lit "%") page in
  platformId (env h) = Browser
  /\ writable (lit "%")
  /\ token_of Browser (jar_put TOKEN_KEY (lit "%") (cookies (env h)))
     = Throw URIError
  /\ exists h',
       onLogin h = (Throw URIError, h')
       /\ cookies (env h') = [(lit "lang", lit "en"); (TOKEN_KEY, lit "%")]
       /\ token (app h') = lit "%"
       /\ patientIframeUrl (app h') = None.
Proof.
  cbv zeta.
  assert (Hw : writable (lit "%")) by writable_tac.
  assert (Hne : lit "%" <> []) by discriminate.
  split; [reflexivity|]. split; [exact Hw|]. split; [reflexivity|].
  destruct (onLogin_unreadable (typing (lit "%") page) (lit "%") URIError
              eq_refl eq_refl Hne Hw eq_refl)
    as [h' [E [Hc [_ Ha]]]].
  exists h'. split; [exact E|]. split; [exact Hc|].
  rewrite Ha. split; reflexivity.
Defined.

(** *** Start-up *)

(** X18. In a browser with a readable token, [ngOnInit] composes both frame
    URLs from the token and installs exactly one message listener; it
    shows no frame. *)
Theorem ngOnInit_in_browser (h : Host) (t : option jsstring) (p s : jsstring) :
  platformId (env h) = Browser ->
  fst (Guarded.getToken h) = Ok t ->
  compose (patientUrl (app h)) t = Ok p ->
  compose (staffUrl (app h)) t = Ok s ->
  ngOnInit h = (Ok tt, listening (with_urls p s h))
  /\ visible Patient (listening (with_urls p s h)) = visible Patient h
  /\ visible Staff (listening (with_urls p s h)) = visible Staff h.
Proof.
  intros Hb Ht Hp Hs. split; [|split; reflexivity].
  unfold ngOnInit.
  rewrite (bind_run _ _ _ tt _ (updateIframeUrls_ok h t p s Ht Hp Hs)).
  unfold setupMessageListener, in_browser.
  cbn [with_urls with_app env platformId]. rewrite Hb. reflexivity.
Qed.

Lemma ngOnInit_in_browser_witness :
  let h := with_env (set_message_listeners 0)
             (browser_host [(TOKEN_KEY, lit "abc")]) in
  platformId (env h) = Browser
  /\ fst (Guarded.getToken h) = Ok (Some (lit "abc"))
  /\ message_listeners (env (snd (ngOnInit h))) = 1%nat
  /\ patientIframeUrl (app (snd (ngOnInit h)))
     = Some (TrustedResourceUrl
               (lit "https://fe-react-v1.practeaz.workers.dev/patient?token=abc")).
Proof.
  cbv zeta. split; [reflexivity|]. split; [reflexivity|].
  rewrite (proj1 (ngOnInit_in_browser
                    (with_env (set_message_listeners 0)
                       (browser_host [(TOKEN_KEY, lit "abc")]))
                    (Some (lit "abc")) _ _ eq_refl eq_refl eq_refl eq_refl)).
  split; reflexivity.
Defined.

(** X19. During server rendering [ngOnInit] reads no token, assigns the bare
    base URLs and then raises [ReferenceError] where it names [window]; no
    listener is installed. *)
Theorem ngOnInit_on_server (h : Host) :
  platformId (env h) = Server ->
  ngOnInit h
  = (Throw ReferenceError,
     with_urls (patientUrl (app h)) (staffUrl (app h)) h).
Proof.
  intros Hp. unfold ngOnInit.
  assert (Ht : fst (Guarded.getToken h) = Ok None)
    by (rewrite getToken_fst, Hp; reflexivity).
  rewrite (bind_run _ _ _ tt _
             (updateIframeUrls_ok h None _ _ Ht eq_refl eq_refl)).
  unfold setupMessageListener, in_browser.
  cbn [with_urls with_app env platformId]. rewrite Hp. reflexivity.
Qed.

Lemma ngOnInit_on_server_witness :
  platformId (env server_host) = Server
  /\ fst (ngOnInit server_host) = Throw ReferenceError
  /\ message_listeners (env (snd (ngOnInit server_host))) = 0%nat.
Proof.
  split; [reflexivity|].
  rewrite (ngOnInit_on_server server_host eq_refl). split; reflexivity.
Defined.

(** *** The message receiver, again *)

(** X20. A message closes at most one frame, and receiving it a second time
    changes nothing further in the component. *)
Theorem onMessage_once (event : MessageEvent) (h : Host) :
  let h1 := snd (onMessage event h) in
  (visible Patient h1 = visible Patient h \/ visible Staff h1 = visible Staff h)
  /\ app (snd (onMessage event h1)) = app h1.
Proof.
  cbv zeta. destruct event as [o d].
  destruct (is_object d) eqn:E.
  - destruct d; try discriminate E.
    rewrite !onMessage_object. cbv zeta. cbn [snd].
    destruct (strict_eq_string (lookup_prop (lit "type") props)
                CLOSE_PATIENT_IFRAME) eqn:Ep.
    + apply strict_eq_string_true in Ep. rewrite Ep.
      cbn [strict_eq_string]. split; [right; reflexivity | reflexivity].
    + destruct (strict_eq_string (lookup_prop (lit "type") props)
                  CLOSE_STAFF_IFRAME); split;
        try (left; reflexivity); reflexivity.
  - rewrite !onMessage_not_object by exact E. split; [left|]; reflexivity.
Qed.

(** *** The composed URL *)

Lemma hexdig_safe d : d < 16 -> url_safe (hexdig d) = true.
Proof.
  intros H.
  assert (E : d = 0 \/ d = 1 \/ d = 2 \/ d = 3 \/ d = 4 \/ d = 5 \/ d = 6
              \/ d = 7 \/ d = 8 \/ d = 9 \/ d = 10 \/ d = 11 \/ d = 12
              \/ d = 13 \/ d = 14 \/ d = 15) by lia.
  repeat (destruct E as [E|E]; [subst d; reflexivity|]).
  subst d. reflexivity.
Qed.

Lemma escape_safe b :
  b < 256 -> Forall (fun c => url_safe c = true) (escape b).
Proof.
  intros H. unfold escape. repeat constructor.
  - apply hexdig_safe. apply N.Div0.div_lt_upper_bound. lia.
  - apply hexdig_safe. apply N.mod_lt. lia.
Qed.

Lemma utf8_octets cp :
  cp < 0x110000 -> Forall (fun b => b < 256) (utf8 cp).
Proof.
  intros H. unfold utf8.
  assert (H6 : forall x, x mod 64 < 64) by (intros; apply N.mod_lt; lia).
  destruct (cp <? 0x80) eqn:E1; nbool.
  { repeat constructor. lia. }
  destruct (cp <? 0x800) eqn:E2; nbool.
  { assert (cp / 64 < 32) by (apply N.Div0.div_lt_upper_bound; lia).
    pose proof (H6 cp). repeat constructor; lia. }
  destruct (cp <? 0x10000) eqn:E3; nbool.
  { assert (cp / 4096 < 16) by (apply N.Div0.div_lt_upper_bound; lia).
    pose proof (H6 cp). pose proof (H6 (cp / 64)).
    repeat constructor; lia. }
  assert (cp / 262144 < 8) by (apply N.Div0.div_lt_upper_bound; lia).
  pose proof (H6 cp). pose proof (H6 (cp / 64)). pose proof (H6 (cp / 4096)).
  repeat constructor; lia.
Qed.

Lemma escape_cp_safe cp :
  cp < 0x110000 -> Forall (fun c => url_safe c = true) (escape_cp cp).
Proof.
  intros H. unfold escape_cp.
  pose proof (utf8_octets cp H) as Ho.
  induction Ho as [|b r Hb _ IH]; [constructor|].
  cbn [flat_map]. apply Forall_app. split; [apply escape_safe; exact Hb|exact IH].
Qed.

Lemma encode_safe s :
  well_formed s = true ->
  forall e, encodeURIComponent s = Ok e ->
  Forall (fun c => url_safe c = true) e.
Proof.
  revert s. apply (well_formed_ind
    (fun s => forall e, encodeURIComponent s = Ok e ->
                        Forall (fun c => url_safe c = true) e)).
  - intros e H. injection H as <-. constructor.
  - intros c r Hh Hl Hc Hwf IH e H.
    cbn [encodeURIComponent] in H. rewrite Hh, Hl in H.
    destruct (encodeURIComponent r) as [er|]; [|destruct (unreserved c); cbn [rmap] in H; discriminate H].
    destruct (unreserved c) eqn:Eu; cbn [rmap] in H; injection H as <-.
    + constructor; [unfold url_safe; rewrite Eu; reflexivity | apply IH; reflexivity].
    + apply Forall_app. split; [apply escape_cp_safe; lia | apply IH; reflexivity].
  - intros hi lo r Hh Hl Hwf IH e H.
    assert (Eu : unreserved hi = false).
    { destruct (unreserved hi) eqn:Eu; [|reflexivity]. exfalso.
      unfold is_high in Hh. unfold unreserved in Eu. nbool; lia. }
    cbn [encodeURIComponent] in H. rewrite Eu, Hh, Hl in H.
    destruct (encodeURIComponent r) as [er|]; [|discriminate H].
    destruct (pair_cp_scalar hi lo Hh Hl) as [[Hlt _] _].
    cbn [rmap] in H. injection H as <-.
    apply Forall_app. split; [apply escape_cp_safe; exact Hlt | apply IH; reflexivity].
Qed.

(** X21. The token cannot break the frame URL: for a well-formed token the
    text appended after [?token=] consists of unreserved characters
    (letters, digits and [-_.!~*'()]) and ['%'] only, so it holds no
    ['&'], ['='], ['#'], ['?'], ['/'] or blank. *)
Theorem compose_url_safe (base t : jsstring) :
  t <> [] -> well_formed t = true ->
  exists e,
    compose base (Some t) = Ok (base ++ lit "?token=" ++ e)
    /\ Forall (fun c => url_safe c = true) e
    /\ Forall (fun c => ~ In c (lit "&=#?/ +")) e.
Proof.
  intros Hne Hwf.
  destruct (compose_present base t Hne Hwf) as [e [He [_ Hc]]].
  pose proof (encode_safe t Hwf e He) as Hs.
  exists e. split; [exact Hc|]. split; [exact Hs|].
  eapply Forall_impl; [|exact Hs]. intros c Hsafe Hin.
  cbn in Hin.
  repeat (destruct Hin as [Hin|Hin]; [subst c; discriminate Hsafe|]).
  exact Hin.
Qed.

Lemma compose_url_safe_witness :
  lit "a&b=c d" <> []
  /\ well_formed (lit "a&b=c d") = true
  /\ compose (lit "http://localhost:3000/patient") (Some (lit "a&b=c d"))
     = Ok (lit "http://localhost:3000/patient?token=a%26b%3Dc%20d")
  /\ exists e,
       compose (lit "http://localhost:3000/patient") (Some (lit "a&b=c d"))
       = Ok (lit "http://localhost:3000/patient" ++ lit "?token=" ++ e)
       /\ Forall (fun c => ~ In c (lit "&=#?/ +")) e.
Proof.
  assert (Hne : lit "a&b=c d" <> []) by discriminate.
  split; [exact Hne|]. split; [reflexivity|]. split; [reflexivity|].
  destruct (compose_url_safe (lit "http://localhost:3000/patient")
              (lit "a&b=c d") Hne eq_refl) as [e [Hc [_ Hs]]].
  exists e. split; assumption.
Defined.

(** X22. Different tokens give different frame URLs: two different
    well-formed tokens are never composed onto the same base to the same
    URL, so the frame can tell from its URL which token it was given. *)
Theorem compose_injective (base t1 t2 : jsstring) :
  t1 <> [] -> t2 <> [] ->
  well_formed t1 = true -> well_formed t2 = true ->
  t1 <> t2 ->
  compose base (Some t1) <> compose base (Some t2).
Proof.
  intros N1 N2 W1 W2 Hd H. apply Hd.
  destruct (compose_present base t1 N1 W1) as [e1 [_ [D1 C1]]].
  destruct (compose_present base t2 N2 W2) as [e2 [_ [D2 C2]]].
  unfold jsstring in *.
  assert (E : base ++ lit "?token=" ++ e1 = base ++ lit "?token=" ++ e2)
    by congruence.
  apply app_inv_head in E. apply app_inv_head in E.
  subst e2. congruence.
Qed.

Lemma compose_injective_witness :
  lit "a b" <> [] /\ lit "a+b" <> []
  /\ well_formed (lit "a b") = true /\ well_formed (lit "a+b") = true
  /\ lit "a b" <> lit "a+b"
  /\ compose (lit "u") (Some (lit "a b"))
     <> compose (lit "u") (Some (lit "a+b")).
Proof.
  assert (H1 : lit "a b" <> []) by discriminate.
  assert (H2 : lit "a+b" <> []) by discriminate.
  assert (H3 : lit "a b" <> lit "a+b") by discriminate.
  repeat (split; [first [reflexivity | assumption]|]).
  exact (compose_injective (lit "u") (lit "a b") (lit "a+b")
           H1 H2 eq_refl eq_refl H3).
Defined.

(** *** The handshake *)

Lemma fire_timer_run h d cb rest :
  timers (env h) = (d, cb) :: rest ->
  fire_timer h = run_callback cb (with_env (set_timers rest) h).
Proof.
  intros H. unfold fire_timer, bind, gets. rewrite H. reflexivity.
Qed.

Lemma run_callback_send type h h1 :
  sendTokenToIframe type h = (Ok tt, h1) ->
  run_callback (SendToken type) h = (Ok tt, h1).
Proof.
  intros H. unfold run_callback. rewrite (bind_run _ _ _ tt h1 H). reflexivity.
Qed.

(** X23. The handshake. In a browser with a well-formed token stored, no
    timer pending and the frame's element in the document, showing a
    hidden frame and letting the timer fire posts exactly one [AUTH_TOKEN]
    message, carrying the stored token, to the frame's origin; no timer is
    left pending. *)
Theorem show_then_fire (h : Host) (type : frame) (t : jsstring) :
  platformId (env h) = Browser ->
  visible type h = false ->
  timers (env h) = [] ->
  fst (Guarded.getToken h) = Ok (Some t) ->
  t <> [] -> well_formed t = true ->
  window_of type h = true ->
  exists h',
    (toggle type ;; fire_timer) h = (Ok tt, h')
    /\ visible type h' = true
    /\ timers (env h') = []
    /\ posted (env h')
       = posted (env h) ++ [{| post_frame := type;
                               post_message := AUTH_TOKEN t;
                               post_target := FRAME_ORIGIN |}].
Proof.
  intros Hb Hv Htm Ht Hne Hwf Hw.
  destruct (compose_present (patientUrl (app h)) t Hne Hwf) as [e [_ [_ Hp]]].
  destruct (compose_present (staffUrl (app h)) t Hne Hwf) as [e' [_ [_ Hs]]].
  pose proof (toggle_show_run type h (Some t) _ _ Hv Ht Hp Hs) as H1.
  set (h1 := scheduled type
               (with_urls (patientUrl (app h) ++ lit "?token=" ++ e)
                          (staffUrl (app h) ++ lit "?token=" ++ e')
                          (flipped type h))) in *.
  set (h2 := with_env (set_timers []) h1).
  assert (Ht2 : fst (Guarded.getToken h2) = Ok (Some t))
    by (rewrite <- Ht; apply getToken_env; reflexivity).
  assert (Hw2 : window_of type h2 = true)
    by (rewrite <- Hw; destruct type; reflexivity).
  exists (posting type t h2). split.
  - rewrite (bind_run _ _ _ tt h1 H1).
    rewrite (fire_timer_run h1 SETTLE_DELAY (SendToken type) []).
    + apply run_callback_send. fold h2.
      rewrite (sendTokenToIframe_run h2 type t); [rewrite Hw2; reflexivity| |
        exact Ht2 | exact Hne].
      exact Hb.
    + unfold h1, scheduled, with_env.
      cbn [env timers set_timers with_urls with_app flipped set_console].
      rewrite Htm. reflexivity.
  - split; [|split; reflexivity].
    destruct (visible_flipped type h) as [Hf _]. rewrite Hv in Hf.
    transitivity (visible type (flipped type h));
      [destruct type; reflexivity | exact Hf].
Qed.

Lemma show_then_fire_witness :
  let h := browser_host [(TOKEN_KEY, lit "abc")] in
  platformId (env h) = Browser
  /\ visible Patient h = false
  /\ timers (env h) = []
  /\ fst (Guarded.getToken h) = Ok (Some (lit "abc"))
  /\ well_formed (lit "abc") = true
  /\ window_of Patient h = true
  /\ exists h',
       (toggle Patient ;; fire_timer) h = (Ok tt, h')
       /\ posted (env h')
          = [{| post_frame := Patient;
                post_message := AUTH_TOKEN (lit "abc");
                post_target := FRAME_ORIGIN |}].
Proof.
  cbv zeta.
  assert (Hne : lit "abc" <> []) by discriminate.
  repeat (split; [reflexivity|]).
  destruct (show_then_fire (browser_host [(TOKEN_KEY, lit "abc")]) Patient
              (lit "abc") eq_refl eq_refl eq_refl eq_refl Hne eq_refl eq_refl)
    as [h' [E [_ [_ Hp]]]].
  exists h'. split; assumption.
Defined.

(** X24. The token is read when the timer fires, not when the frame is
    shown: if the token is removed in between, nothing is posted. *)
Theorem remove_before_fire (h : Host) (type : frame) (t : option jsstring)
  (p s : jsstring) :
  platformId (env h) = Browser ->
  Forall tame (cookies (env h)) ->
  visible type h = false ->
  timers (env h) = [] ->
  fst (Guarded.getToken h) = Ok t ->
  compose (patientUrl (app h)) t = Ok p ->
  compose (staffUrl (app h)) t = Ok s ->
  exists h',
    (toggle type ;; Guarded.removeToken ;; fire_timer) h = (Ok tt, h')
    /\ posted (env h') = posted (env h)
    /\ timers (env h') = []
    /\ patientIframeUrl (app h') = Some (TrustedResourceUrl p).
Proof.
  intros Hb Hjar Hv Htm Ht Hp Hs.
  pose proof (toggle_show_run type h t p s Hv Ht Hp Hs) as H1.
  set (h1 := scheduled type (with_urls p s (flipped type h))) in *.
  assert (Hb1 : platformId (env h1) = Browser) by exact Hb.
  pose proof (removeToken_run h1 Hb1) as H2.
  set (h2 := with_cookies (jar_remove TOKEN_KEY (cookies (env h1))) h1) in *.
  set (h3 := with_env (set_timers []) h2).
  assert (Ht3 : fst (Guarded.getToken h3) = Ok None).
  { rewrite getToken_fst.
    change (platformId (env h3)) with (platformId (env h)). rewrite Hb.
    change (cookies (env h3)) with (jar_remove TOKEN_KEY (cookies (env h))).
    destruct (tame_remove _ Hjar) as [T1 T2].
    apply token_of_absent; assumption. }
  exists h3. split.
  - rewrite (bind_run _ _ _ tt h1 H1).
    rewrite (bind_run _ _ _ tt h2 H2).
    rewrite (fire_timer_run h2 SETTLE_DELAY (SendToken type) []).
    + apply run_callback_send. fold h3.
      apply sendTokenToIframe_idle. exact Ht3.
    + unfold h2, h1, scheduled, with_cookies, with_env.
      cbn [env timers set_timers set_cookies with_urls with_app flipped
           set_console].
      rewrite Htm. reflexivity.
  - repeat split.
Qed.

Lemma remove_before_fire_witness :
  let h := browser_host [(TOKEN_KEY, lit "abc")] in
  platformId (env h) = Browser
  /\ Forall tame (cookies (env h))
  /\ visible Staff h = false
  /\ timers (env h) = []
  /\ fst (Guarded.getToken h) = Ok (Some (lit "abc"))
  /\ exists h',
       (toggle Staff ;; Guarded.removeToken ;; fire_timer) h = (Ok tt, h')
       /\ posted (env h') = [].
Proof.
  cbv zeta.
  assert (Hj : Forall tame
                 (cookies (env (browser_host [(TOKEN_KEY, lit "abc")]))))
    by tame_tac.
  split; [reflexivity|]. split; [exact Hj|].
  repeat (split; [reflexivity|]).
  destruct (remove_before_fire (browser_host [(TOKEN_KEY, lit "abc")]) Staff
              (Some (lit "abc")) _ _ eq_refl Hj eq_refl eq_refl eq_refl
              eq_refl eq_refl)
    as [h' [E [Hp _]]].
  exists h'. split; assumption.
Defined.

(** X25. Hiding a frame does not call off the send scheduled when it was
    shown: after show, hide and the timer firing, the token has still been
    posted once if the frame's element is in the document. *)
Theorem hide_does_not_cancel (h : Host) (type : frame) (t : jsstring) :
  platformId (env h) = Browser ->
  visible type h = false ->
  timers (env h) = [] ->
  fst (Guarded.getToken h) = Ok (Some t) ->
  t <> [] -> well_formed t = true ->
  window_of type h = true ->
  exists h',
    (toggle type ;; toggle type ;; fire_timer) h = (Ok tt, h')
    /\ visible type h' = false
    /\ posted (env h')
       = posted (env h) ++ [{| post_frame := type;
                               post_message := AUTH_TOKEN t;
                               post_target := FRAME_ORIGIN |}].
Proof.
  intros Hb Hv Htm Ht Hne Hwf Hw.
  destruct (compose_present (patientUrl (app h)) t Hne Hwf) as [e [_ [_ Hp]]].
  destruct (compose_present (staffUrl (app h)) t Hne Hwf) as [e' [_ [_ Hs]]].
  pose proof (toggle_show_run type h (Some t) _ _ Hv Ht Hp Hs) as H1.
  set (h1 := scheduled type
               (with_urls (patientUrl (app h) ++ lit "?token=" ++ e)
                          (staffUrl (app h) ++ lit "?token=" ++ e')
                          (flipped type h))) in *.
  destruct (visible_flipped type h) as [Hf _]. rewrite Hv in Hf.
  assert (Hv1 : visible type h1 = true).
  { transitivity (visible type (flipped type h));
      [destruct type; reflexivity | exact Hf]. }
  pose proof (toggle_hide_run type h1 Hv1) as H2.
  set (h2 := flipped type h1) in *.
  set (h3 := with_env (set_timers []) h2).
  assert (Ht3 : fst (Guarded.getToken h3) = Ok (Some t))
    by (rewrite <- Ht; apply getToken_env; reflexivity).
  assert (Hw3 : window_of type h3 = true)
    by (rewrite <- Hw; destruct type; reflexivity).
  exists (posting type t h3). split.
  - rewrite (bind_run _ _ _ tt h1 H1).
    rewrite (bind_run _ _ _ tt h2 H2).
    rewrite (fire_timer_run h2 SETTLE_DELAY (SendToken type) []).
    + apply run_callback_send. fold h3.
      rewrite (sendTokenToIframe_run h3 type t Hb Ht3 Hne), Hw3. reflexivity.
    + unfold h2, h1, flipped, scheduled, with_env.
      cbn [env timers set_timers with_urls with_app set_console].
      rewrite Htm. reflexivity.
  - split; [|reflexivity].
    destruct (visible_flipped type h1) as [Hf1 _]. rewrite Hv1 in Hf1.
    transitivity (visible type (flipped type h1));
      [destruct type; reflexivity | exact Hf1].
Qed.

Lemma hide_does_not_cancel_witness :
  let h := browser_host [(TOKEN_KEY, lit "abc")] in
  platformId (env h) = Browser
  /\ visible Patient h = false
  /\ timers (env h) = []
  /\ fst (Guarded.getToken h) = Ok (Some (lit "abc"))
  /\ well_formed (lit "abc") = true
  /\ window_of Patient h = true
  /\ exists h',
       (toggle Patient ;; toggle Patient ;; fire_timer) h = (Ok tt, h')
       /\ visible Patient h' = false
       /\ posted (env h')
          = [{| post_frame := Patient;
                post_message := AUTH_TOKEN (lit "abc");
                post_target := FRAME_ORIGIN |}].
Proof.
  cbv zeta.
  assert (Hne : lit "abc" <> []) by discriminate.
  repeat (split; [reflexivity|]).
  exact (hide_does_not_cancel (browser_host [(TOKEN_KEY, lit "abc")]) Patient
           (lit "abc") eq_refl eq_refl eq_refl eq_refl Hne eq_refl eq_refl).
Defined.


(** *** The two builds *)

Lemma unguarded_getToken h :
  platformId (env h) = Browser -> Unguarded.getToken h = Guarded.getToken h.
Proof.
  intros Hb. unfold Guarded.getToken, Unguarded.getToken, bind, gets.
  rewrite Hb. reflexivity.
Qed.

Lemma unguarded_setToken h t :
  platformId (env h) = Browser ->
  Unguarded.setToken t h = Guarded.setToken t h.
Proof.
  intros Hb. unfold Guarded.setToken, Unguarded.setToken, bind, gets.
  rewrite Hb. reflexivity.
Qed.

Lemma local_updateIframeUrls h :
  platformId (env h) = Browser ->
  Local.updateIframeUrls h = updateIframeUrls h.
Proof.
  intros Hb. unfold Local.updateIframeUrls, updateIframeUrls, bind.
  rewrite unguarded_getToken by exact Hb. reflexivity.
Qed.

Lemma updateIframeUrls_platform h :
  platformId (env (snd (updateIframeUrls h))) = platformId (env h).
Proof.
  destruct (updateIframeUrls_keeps h) as [He _]. rewrite He. reflexivity.
Qed.

(** X26. In a browser the local build composes the frame URLs and handles a
    login exactly as the deployed build does. *)
Theorem builds_agree (h : Host) :
  platformId (env h) = Browser ->
  Local.updateIframeUrls h = updateIframeUrls h
  /\ Local.ngOnInit h = updateIframeUrls h
  /\ Local.onLogin h = onLogin h.
Proof.
  intros Hb. split; [|split]; try (apply local_updateIframeUrls; exact Hb).
  unfold Local.onLogin, onLogin, bind, gets.
  destruct (token (app h)) as [|c r]; [reflexivity|].
  rewrite unguarded_setToken by exact Hb.
  rewrite (setToken_unfold h (c :: r) Hb).
  unfold alert, in_browser, modify.
  cbn [with_cookies with_env env platformId set_cookies]. rewrite Hb.
  rewrite local_updateIframeUrls by exact Hb. reflexivity.
Qed.

Lemma builds_agree_witness :
  platformId (env (typing (lit "abc") page)) = Browser
  /\ Local.onLogin (typing (lit "abc") page) = onLogin (typing (lit "abc") page).
Proof.
  split; [reflexivity|].
  exact (proj2 (proj2 (builds_agree (typing (lit "abc") page) eq_refl))).
Defined.

Lemma local_toggle_unfold type h :
  Local.toggle type h =
  if negb (visible type h)
  then (Local.updateIframeUrls ;; setTimeout (SendTokenLocal type) SETTLE_DELAY)
         (flip_only type h)
  else (Ok tt, flip_only type h).
Proof.
  destruct type;
    unfold Local.toggle, Local.togglePatientIframe, Local.toggleStaffIframe,
      flip_only, visible;
    cbv beta iota delta [bind modify gets with_app];
    cbn [app env showPatientIframe showStaffIframe set_showPatientIframe
         set_showStaffIframe];
    [destruct (showPatientIframe (app h)) | destruct (showStaffIframe (app h))];
    reflexivity.
Qed.

Lemma local_sendTokenToIframe_run h type t :
  platformId (env h) = Browser ->
  fst (Guarded.getToken h) = Ok (Some t) ->
  t <> [] ->
  window_of type h = true ->
  Local.sendTokenToIframe type h = (Ok tt, posting_local type t h).
Proof.
  intros Hb Ht Hne Hw. destruct t as [|c r]; [contradiction|].
  unfold Local.sendTokenToIframe, bind.
  rewrite unguarded_getToken by exact Hb. rewrite getToken_run, Ht.
  unfold frame_window, in_browser, gets. rewrite Hb.
  unfold window_of in Hw. destruct type; rewrite Hw; reflexivity.
Qed.

(** X27. The toggles of the local build. Hiding a frame changes its flag
    and nothing else. Showing a hidden frame, in a browser with a
    well-formed token stored, no timer pending and the frame's element in
    the document, flips the flag, composes both URLs from the token, logs
    nothing and leaves one send pending; when that timer fires, the sender
    of the local build posts one [AUTH_TOKEN] message with the token to
    [http://localhost:3000/]. *)
Theorem local_toggle (h : Host) (type : frame) :
  (visible type h = true -> Local.toggle type h = (Ok tt, flip_only type h))
  /\ (forall t,
        platformId (env h) = Browser ->
        visible type h = false ->
        timers (env h) = [] ->
        fst (Guarded.getToken h) = Ok (Some t) ->
        t <> [] -> well_formed t = true ->
        window_of type h = true ->
        exists e h1 h2,
          encodeURIComponent t = Ok e
          /\ Local.toggle type h = (Ok tt, h1)
          /\ visible type h1 = true
          /\ patientIframeUrl (app h1)
             = Some (TrustedResourceUrl
                       (patientUrl (app h) ++ lit "?token=" ++ e))
          /\ staffIframeUrl (app h1)
             = Some (TrustedResourceUrl
                       (staffUrl (app h) ++ lit "?token=" ++ e))
          /\ console (env h1) = console (env h)
          /\ timers (env h1) = [(SETTLE_DELAY, SendTokenLocal type)]
          /\ fire_timer h1 = (Ok tt, h2)
          /\ timers (env h2) = []
          /\ posted (env h2)
             = posted (env h) ++ [{| post_frame := type;
                                     post_message := AUTH_TOKEN t;
                                     post_target := Local.FRAME_ORIGIN |}]).
Proof.
  split.
  - intros Hv. rewrite local_toggle_unfold, Hv. reflexivity.
  - intros t Hb Hv Htm Ht Hne Hwf Hw.
    destruct (compose_present (patientUrl (app h)) t Hne Hwf)
      as [e [He [_ Hp]]].
    destruct (compose_present (staffUrl (app h)) t Hne Hwf)
      as [e' [He' [_ Hs]]].
    assert (e' = e) by congruence. subst e'.
    set (h0 := with_urls (patientUrl (app h) ++ lit "?token=" ++ e)
                 (staffUrl (app h) ++ lit "?token=" ++ e) (flip_only type h)).
    set (h1 := with_env (fun v =>
                 set_timers (timers v ++ [(SETTLE_DELAY, SendTokenLocal type)]) v)
                 h0).
    set (h2 := with_env (set_timers []) h1).
    assert (Hu : Local.updateIframeUrls (flip_only type h) = (Ok tt, h0)).
    { rewrite local_updateIframeUrls by (destruct type; exact Hb).
      apply (updateIframeUrls_ok (flip_only type h) (Some t)).
      - rewrite <- Ht. apply getToken_env; destruct type; reflexivity.
      - destruct type; exact Hp.
      - destruct type; exact Hs. }
    assert (H1 : Local.toggle type h = (Ok tt, h1)).
    { rewrite local_toggle_unfold, Hv. cbn [negb].
      rewrite (bind_run _ _ _ tt h0 Hu). reflexivity. }
    assert (Ht2 : fst (Guarded.getToken h2) = Ok (Some t))
      by (rewrite <- Ht; apply getToken_env; destruct type; reflexivity).
    assert (Hw2 : window_of type h2 = true)
      by (rewrite <- Hw; destruct type; reflexivity).
    assert (Hb2 : platformId (env h2) = Browser)
      by (rewrite <- Hb; destruct type; reflexivity).
    assert (Htm1 : timers (env h1) = [(SETTLE_DELAY, SendTokenLocal type)]).
    { unfold h1, h0, with_env.
      cbn [env timers set_timers with_urls with_app flip_only].
      destruct type; cbn [with_app env]; rewrite Htm; reflexivity. }
    exists e, h1, (posting_local type t h2).
    split; [exact He|]. split; [exact H1|].
    split; [unfold visible in Hv; destruct type; cbn; rewrite Hv; reflexivity|].
    split; [destruct type; reflexivity|].
    split; [destruct type; reflexivity|].
    split; [destruct type; reflexivity|].
    split; [exact Htm1|].
    split.
    + rewrite (fire_timer_run h1 SETTLE_DELAY (SendTokenLocal type) [] Htm1).
      fold h2. unfold run_callback.
      apply local_sendTokenToIframe_run; assumption.
    + split; [reflexivity|]. destruct type; reflexivity.
Qed.

Lemma local_toggle_witness :
  let h := browser_host [(TOKEN_KEY, lit "abc")] in
  visible Staff shown_host = true
  /\ Local.toggle Staff shown_host = (Ok tt, flip_only Staff shown_host)
  /\ platformId (env h) = Browser
  /\ visible Patient h = false
  /\ timers (env h) = []
  /\ fst (Guarded.getToken h) = Ok (Some (lit "abc"))
  /\ well_formed (lit "abc") = true
  /\ window_of Patient h = true
  /\ exists h1 h2,
       Local.toggle Patient h = (Ok tt, h1)
       /\ fire_timer h1 = (Ok tt, h2)
       /\ posted (env h2)
          = [{| post_frame := Patient;
                post_message := AUTH_TOKEN (lit "abc");
                post_target := lit "http://localhost:3000/" |}].
Proof.
  cbv zeta.
  split; [reflexivity|].
  split; [exact (proj1 (local_toggle shown_host Staff) eq_refl)|].
  repeat (split; [reflexivity|]).
  assert (Hne : lit "abc" <> []) by discriminate.
  destruct (proj2 (local_toggle (browser_host [(TOKEN_KEY, lit "abc")]) Patient)
              (lit "abc") eq_refl eq_refl eq_refl eq_refl Hne eq_refl eq_refl)
    as [e [h1 [h2 [_ [E1 [_ [_ [_ [_ [_ [E2 [_ Hp]]]]]]]]]]]].
  exists h1, h2. split; [exact E1|]. split; [exact E2 | exact Hp].
Defined.

(** *** The proxied response *)

Lemma getHeader_setHeader name key value out :
  Proxy.getHeader name (Proxy.setHeader key value out)
  = if jseq (Proxy.toLowerCase key) (Proxy.toLowerCase name) then Some value
    else Proxy.getHeader name out.
Proof.
  induction out as [|[k v] r IH]; cbn [Proxy.setHeader Proxy.getHeader].
  - reflexivity.
  - destruct (jseq (Proxy.toLowerCase k) (Proxy.toLowerCase key)) eqn:Ek.
    + apply jseq_eq in Ek. cbn [Proxy.getHeader]. rewrite Ek.
      destruct (jseq (Proxy.toLowerCase key) (Proxy.toLowerCase name));
        reflexivity.
    + cbn [Proxy.getHeader].
      destruct (jseq (Proxy.toLowerCase k) (Proxy.toLowerCase name)) eqn:En.
      * destruct (jseq (Proxy.toLowerCase key) (Proxy.toLowerCase name)) eqn:E;
          [|reflexivity].
        apply jseq_eq in En, E. rewrite <- E in En.
        rewrite En, jseq_refl in Ek. discriminate.
      * exact IH.
Qed.

Lemma forwarded_same k name :
  jseq (Proxy.toLowerCase k) (Proxy.toLowerCase name) = true ->
  Proxy.forwarded k = Proxy.forwarded name.
Proof.
  intros H. apply jseq_eq in H. unfold Proxy.forwarded. rewrite H.
  reflexivity.
Qed.

(** X28. The headers set on the response when the [forEach] loop of a proxy
    ends, before [res.send] adds its own: every header of the backend
    except [content-encoding] and [transfer-encoding], whatever the case
    of their names, with the last value when the loop visits a name more
    than once; a header the backend does not give keeps what the response
    already had. *)
Theorem forward_headers_spec (headers out : list (jsstring * jsstring))
  (name : jsstring) :
  Proxy.getHeader name (Proxy.forward_headers headers out)
  = match (if Proxy.forwarded name then Proxy.last_value name headers
           else None) with
    | Some v => Some v
    | None => Proxy.getHeader name out
    end.
Proof.
  revert out. induction headers as [|[k v] rest IH]; intros out.
  - cbn [Proxy.forward_headers Proxy.last_value].
    destruct (Proxy.forwarded name); reflexivity.
  - cbn [Proxy.forward_headers Proxy.last_value]. rewrite IH.
    destruct (Proxy.forwarded name) eqn:Fn.
    + destruct (Proxy.last_value name rest) as [w|]; [reflexivity|].
      destruct (jseq (Proxy.toLowerCase k) (Proxy.toLowerCase name)) eqn:E.
      * rewrite (forwarded_same k name E), Fn.
        rewrite getHeader_setHeader, E. reflexivity.
      * destruct (Proxy.forwarded k); [|reflexivity].
        rewrite getHeader_setHeader, E. reflexivity.
    + destruct (jseq (Proxy.toLowerCase k) (Proxy.toLowerCase name)) eqn:E.
      * rewrite (forwarded_same k name E), Fn. reflexivity.
      * destruct (Proxy.forwarded k); [|reflexivity].
        rewrite getHeader_setHeader, E. reflexivity.
Qed.

(** The loop, run: the encoding is left out, of two cookies the last one
    stays, and what the response had is kept. *)
Example forward_headers_run :
  let backend := [(lit "content-type", lit "text/html");
                  (lit "content-encoding", lit "gzip");
                  (lit "set-cookie", lit "a=1");
                  (lit "set-cookie", lit "b=2")] in
  let out := Proxy.forward_headers backend [(lit "X-Powered-By", lit "Express")] in
  Proxy.getHeader (lit "Content-Encoding") out = None
  /\ Proxy.getHeader (lit "Content-Type") out = Some (lit "text/html")
  /\ Proxy.getHeader (lit "Set-Cookie") out = Some (lit "b=2")
  /\ Proxy.getHeader (lit "x-powered-by") out = Some (lit "Express").
Proof. repeat split. Qed.

